(** * DialogueRecorder: the line classifier and the search ranker

    A shallow embedding of [DialogueListenerService], [DatabaseService] and
    [SearchService] of the DialogueRecorder extension, with the properties
    of its specification stated and settled against the embedded code.

    Conventions.
    - A JavaScript string is the list of its UTF-16 code units, so that
      [length] is the [.length] of the source.
    - [String.prototype.toLowerCase] is a parameter of the development:
      a theorem with the parameter holds for every case mapping.  Concrete
      evaluations use [asciiLower], which agrees with the host on strings
      made of Basic Latin and caseless (for instance CJK) characters, or
      [dottedLower], which also lower-cases U+0130 as the host does.
    - JavaScript numbers that carry scores are exact rationals ([Q]);
      rounding of IEEE doubles is not modelled.
    - A [Date] is a valid instant, an integer number of milliseconds.  The
      store keeps it as the text of [toISOString()] and compares, sorts
      and aggregates timestamps as text, byte by byte; a row of the model
      keeps the instant, and every comparison the store makes goes
      through [toISOString].
    - The store keeps its texts as UTF-8.  A well-formed text is written
      and read back as it is, and the model writes every text as it is;
      a surrogate without its partner would come back as U+FFFD, so that
      a theorem that hands a text to the store and reads it back, or
      looks rows up by it, assumes the text well-formed ([wellFormed]).
    - Asynchronous calls are run to completion one after the other.  The
      listener does not await the saves it starts for the lines of a
      document; the model completes each save before the next line is
      read, which is one of the orders in which the store can receive
      them. *)

From Stdlib Require Import List Bool Arith NArith ZArith QArith Qminmax Lia Lqa.
From Stdlib Require Import Ascii String DecimalString Permutation Sorted.
Import ListNotations.

Set Implicit Arguments.

(** ** JavaScript strings *)

Module JS.

Definition jsstring := list N.

(** Decoding of the UTF-8 bytes of a Rocq string literal into code points. *)
Fixpoint utf8_points (fuel : nat) (bs : list N) : list N :=
  match fuel with
  | O => []
  | S fuel' =>
    match bs with
    | [] => []
    | b0 :: r0 =>
      if (b0 <? 128)%N then b0 :: utf8_points fuel' r0
      else if (b0 <? 224)%N then
        match r0 with
        | b1 :: r1 =>
          ((b0 - 192) * 64 + (b1 - 128))%N :: utf8_points fuel' r1
        | _ => []
        end
      else if (b0 <? 240)%N then
        match r0 with
        | b1 :: b2 :: r2 =>
          ((b0 - 224) * 4096 + (b1 - 128) * 64 + (b2 - 128))%N
            :: utf8_points fuel' r2
        | _ => []
        end
      else
        match r0 with
        | b1 :: b2 :: b3 :: r3 =>
          ((b0 - 240) * 262144 + (b1 - 128) * 4096 + (b2 - 128) * 64
           + (b3 - 128))%N :: utf8_points fuel' r3
        | _ => []
        end
    end
  end.

(** A code point as one code unit, or as a surrogate pair. *)
Definition utf16_units (cp : N) : list N :=
  if (cp <? 65536)%N then [cp]
  else [(55296 + (cp - 65536) / 1024)%N; (56320 + (cp - 65536) mod 1024)%N].

Definition bytes_of (s : string) : list N :=
  List.map N_of_ascii (list_ascii_of_string s).

(** The JavaScript string written by a source literal. *)
Definition lit (s : string) : jsstring :=
  let bs := bytes_of s in
  flat_map utf16_units (utf8_points (List.length bs) bs).

Definition eqb (a b : jsstring) : bool :=
  if list_eq_dec N.eq_dec a b then true else false.

(** [s.startsWith(p)] *)
Fixpoint startsWith (s p : jsstring) {struct p} : bool :=
  match p, s with
  | [], _ => true
  | _ :: _, [] => false
  | c :: p', d :: s' => (c =? d)%N && startsWith s' p'
  end.

(** [s.indexOf(p)], counted from the head of [s]; [None] is [-1]. *)
Fixpoint indexOf (s p : jsstring) : option nat :=
  if startsWith s p then Some O
  else match s with
       | [] => None
       | _ :: s' => option_map S (indexOf s' p)
       end.

(** [s.includes(p)] *)
Definition includes (s p : jsstring) : bool :=
  match indexOf s p with Some _ => true | None => false end.

(** [s.indexOf(p, from)] *)
Definition indexOfFrom (s p : jsstring) (from : nat) : option nat :=
  if Nat.ltb (List.length s) from
  then (if startsWith [] p then Some (List.length s) else None)
  else option_map (Nat.add from) (indexOf (skipn from s) p).

(** [s.substring(a, b)]: the arguments are swapped when [b < a]. *)
Definition substring (s : jsstring) (a b : nat) : jsstring :=
  let lo := Nat.min a b in
  let hi := Nat.max a b in
  firstn (hi - lo) (skipn lo s).

(** [s.split(sep)] for a separator of one code unit. *)
Fixpoint split (sep : N) (s : jsstring) : list jsstring :=
  match s with
  | [] => [[]]
  | c :: s' =>
    if (c =? sep)%N then [] :: split sep s'
    else match split sep s' with
         | [] => [[c]]
         | piece :: pieces => (c :: piece) :: pieces
         end
  end.

(** [s.endsWith(p)] *)
Definition endsWith (s p : jsstring) : bool :=
  Nat.leb (List.length p) (List.length s)
  && eqb (skipn (List.length s - List.length p) s) p.

(** White space and line terminators, as [trim] and the class [\s] see
    them. *)
Definition isWhiteSpace (c : N) : bool :=
  ((9 <=? c) && (c <=? 13) || (c =? 32) || (c =? 160) || (c =? 5760)
   || (8192 <=? c) && (c <=? 8202) || (c =? 8232) || (c =? 8233)
   || (c =? 8239) || (c =? 8287) || (c =? 12288) || (c =? 65279))%N.

Fixpoint dropWhile (f : N -> bool) (s : jsstring) : jsstring :=
  match s with
  | [] => []
  | c :: s' => if f c then dropWhile f s' else s
  end.

(** [s.trim()] *)
Definition trim (s : jsstring) : jsstring :=
  rev (dropWhile isWhiteSpace (rev (dropWhile isWhiteSpace s))).

(** Truthiness of a string: the empty string is falsy. *)
Definition truthy (s : jsstring) : bool :=
  match s with [] => false | _ => true end.

(** Lower-casing of the Basic Latin block, identity elsewhere. *)
Definition asciiLowerUnit (c : N) : N :=
  if ((65 <=? c) && (c <=? 90))%N then (c + 32)%N else c.

Definition asciiLower (s : jsstring) : jsstring := List.map asciiLowerUnit s.

(** Lower-casing that also knows the capital I with dot above (U+0130),
    whose lower case is two code units (U+0069 U+0307), as the host has
    it; identity outside the Basic Latin block otherwise. *)
Definition dottedLower (s : jsstring) : jsstring :=
  flat_map (fun c => if (c =? 304)%N then [105%N; 775%N]
                     else [asciiLowerUnit c]) s.

(** Decimal rendering of a natural number, as template literals do. *)
Definition decimal (n : nat) : jsstring :=
  bytes_of (NilZero.string_of_uint (Nat.to_uint n)).

End JS.

Import JS.

(** ** Data model ([models/DialogueRecord.ts]) *)

Inductive Speaker := USER | BUILDER | CHAT.

Inductive RecordType := DIALOGUE | FILE_MODIFICATION | UNDO | REDO.

Definition Speaker_eqb (a b : Speaker) : bool :=
  match a, b with
  | USER, USER | BUILDER, BUILDER | CHAT, CHAT => true
  | _, _ => false
  end.

Definition RecordType_eqb (a b : RecordType) : bool :=
  match a, b with
  | DIALOGUE, DIALOGUE | FILE_MODIFICATION, FILE_MODIFICATION
  | UNDO, UNDO | REDO, REDO => true
  | _, _ => false
  end.

Definition speakerName (s : Speaker) : jsstring :=
  match s with
  | USER => lit "USER"
  | BUILDER => lit "BUILDER"
  | CHAT => lit "CHAT"
  end.

(** A [Date] is its number of milliseconds since the epoch.  Of the
    optional fields of a record only [filePath] is read by the modelled
    code; an absent or [null] value is [None]. *)
Record DialogueRecord := {
  id : jsstring;
  sessionId : jsstring;
  timestamp : Z;
  speaker : Speaker;
  content : jsstring;
  recordType : RecordType;
  filePath : option jsstring
}.

Record SearchCriteria := {
  keyword : option jsstring;
  startTime : option Z;
  endTime : option Z;
  criteriaSpeaker : option Speaker;
  criteriaRecordType : option RecordType;
  fileExtension : option jsstring
}.

Record SearchResult := {
  record : DialogueRecord;
  relevance : Q;
  highlights : list jsstring
}.

Record SessionDetail := {
  detailSessionId : jsstring;
  sessionName : jsstring;
  records : list DialogueRecord;
  totalRecords : nat;
  duration : jsstring;
  speakers : list jsstring;
  detailStartTime : Z;
  detailEndTime : Z
}.

(** ** Failures *)

Inductive Error :=
| DatabaseNotInitialized        (* [new Error('Database not initialized')] *)
| SqliteError (code : jsstring) (* the [err] of a statement callback *)
| TypeError                     (* a property read on [undefined] *)
| SyntaxError.                  (* an invalid regular expression *)

Inductive Outcome (A : Type) :=
| Returned (a : A)
| Thrown (e : Error).

Arguments Returned {A} a.
Arguments Thrown {A} e.

Definition returned {A} (o : Outcome A) : bool :=
  match o with Returned _ => true | Thrown _ => false end.

(** ** The record store ([services/DatabaseService.ts]) *)

(** A row of table [dialogue_records]: the six columns of [CREATE TABLE]. *)
Record Row := {
  row_id : jsstring;
  row_session_id : jsstring;
  row_timestamp : Z;
  row_speaker : Speaker;
  row_content : jsstring;
  row_record_type : RecordType
}.

(** The state of a [DatabaseService]:
    - [Ready rows]: the handle is open; [rows] in insertion order;
    - [Failing e]: the handle exists but its statements report [e];
    - [InitFailed e]: [this.db] is null and the initialization promise
      rejected with [e];
    - [Closed]: [this.db] is null after [close()]. *)
Inductive Database :=
| Ready (rows : list Row)
| Failing (e : Error)
| InitFailed (e : Error)
| Closed.

(** The parameter list of the [INSERT] of [saveRecord]; the texts as they
    are, which is how the store holds a well-formed text. *)
Definition rowOf (r : DialogueRecord) : Row :=
  {| row_id := id r; row_session_id := sessionId r;
     row_timestamp := timestamp r; row_speaker := speaker r;
     row_content := content r; row_record_type := recordType r |}.

(** The [rows.map] of [getRecordsBySession] and [searchRecords]. *)
Definition recordOf (w : Row) : DialogueRecord :=
  {| id := row_id w; sessionId := row_session_id w;
     timestamp := row_timestamp w; speaker := row_speaker w;
     content := row_content w; recordType := row_record_type w;
     filePath := None |}.

(** The guard [if (!this.db) { await ...; if (!this.db) throw ... }]
    followed by a statement on the handle. *)
Definition withDb {A} (d : Database) (k : list Row -> Outcome A) : Outcome A :=
  match d with
  | Ready rows => k rows
  | Failing e => Thrown e
  | InitFailed e => Thrown e
  | Closed => Thrown DatabaseNotInitialized
  end.

(** [saveRecord]: [id] is the primary key of the table. *)
Definition saveRecord (r : DialogueRecord) (d : Database)
  : Outcome unit * Database :=
  match d with
  | Ready rows =>
    if existsb (fun w => eqb (row_id w) (id r)) rows
    then (Thrown (SqliteError (lit "SQLITE_CONSTRAINT")), d)
    else (Returned tt, Ready (rows ++ [rowOf r]))
  | Failing e => (Thrown e, d)
  | InitFailed e => (Thrown e, d)
  | Closed => (Thrown DatabaseNotInitialized, d)
  end.

(** Stable insertion sort, for [ORDER BY] and [Array.prototype.sort];
    [before x y] says that [x] must come strictly before [y]. *)
Section Sorting.
Variable A : Type.
Variable before : A -> A -> bool.

Fixpoint insertSorted (x : A) (l : list A) : list A :=
  match l with
  | [] => [x]
  | y :: l' => if before y x then y :: insertSorted x l' else x :: l
  end.

Definition sortBy (l : list A) : list A := fold_right insertSorted [] l.
End Sorting.

(** ** Text as the store compares it

    The values of the table are text.  A timestamp is written as the
    text of [toISOString()], which the column [timestamp DATETIME] keeps
    as text since it does not read as a number, and [ORDER BY], [MIN],
    [MAX], [>=] and [<=] compare that text under the collation BINARY,
    byte by byte.  A row of the model keeps the instant; every comparison
    the store makes goes through its ISO text. *)

Definition isHighSurrogate (c : N) : bool := ((55296 <=? c) && (c <=? 56319))%N.
Definition isLowSurrogate (c : N) : bool := ((56320 <=? c) && (c <=? 57343))%N.

Definition utf8OfPoint (cp : N) : list N :=
  if (cp <? 128)%N then [cp]
  else if (cp <? 2048)%N then [(192 + cp / 64)%N; (128 + cp mod 64)%N]
  else if (cp <? 65536)%N then
    [(224 + cp / 4096)%N; (128 + (cp / 64) mod 64)%N; (128 + cp mod 64)%N]
  else
    [(240 + cp / 262144)%N; (128 + (cp / 4096) mod 64)%N;
     (128 + (cp / 64) mod 64)%N; (128 + cp mod 64)%N].

(** The UTF-8 bytes of a string; a surrogate without its partner is
    written as U+FFFD. *)
Fixpoint utf8Bytes (s : jsstring) : list N :=
  match s with
  | [] => []
  | c :: s' =>
    if isHighSurrogate c then
      match s' with
      | l :: rest =>
        if isLowSurrogate l
        then utf8OfPoint (65536 + (c - 55296) * 1024 + (l - 56320))%N
             ++ utf8Bytes rest
        else utf8OfPoint 65533 ++ utf8Bytes s'
      | [] => utf8OfPoint 65533
      end
    else if isLowSurrogate c then utf8OfPoint 65533 ++ utf8Bytes s'
    else utf8OfPoint c ++ utf8Bytes s'
  end.

Fixpoint bytesLtb (a b : list N) : bool :=
  match a, b with
  | _, [] => false
  | [], _ :: _ => true
  | x :: a', y :: b' =>
    if (x <? y)%N then true
    else if (y <? x)%N then false
    else bytesLtb a' b'
  end.

(** [a < b] on text. *)
Definition textLtb (a b : jsstring) : bool :=
  bytesLtb (utf8Bytes a) (utf8Bytes b).

(** The part of a text before its first NUL. *)
Fixpoint cutNul (s : jsstring) : jsstring :=
  match s with
  | [] => []
  | c :: s' => if (c =? 0)%N then [] else c :: cutNul s'
  end.

(** [Date.prototype.toISOString] of a valid date: the days since the
    epoch as a civil date of the proleptic Gregorian calendar, a year
    outside 0..9999 written with its sign and six digits. *)
Definition civilFromDays (days : Z) : Z * Z * Z :=
  let z := (days + 719468)%Z in
  let era := (z / 146097)%Z in
  let doe := (z - era * 146097)%Z in
  let yoe := ((doe - doe / 1460 + doe / 36524 - doe / 146096) / 365)%Z in
  let y := (yoe + era * 400)%Z in
  let doy := (doe - (365 * yoe + yoe / 4 - yoe / 100))%Z in
  let mp := ((5 * doy + 2) / 153)%Z in
  let d := (doy - (153 * mp + 2) / 5 + 1)%Z in
  let m := if (mp <? 10)%Z then (mp + 3)%Z else (mp - 9)%Z in
  (if (m <=? 2)%Z then (y + 1)%Z else y, m, d).

Definition digits (width : nat) (n : Z) : jsstring :=
  let text := decimal (Z.to_nat n) in
  repeat 48%N (width - List.length text) ++ text.

Definition toISOString (t : Z) : jsstring :=
  let days := (t / 86400000)%Z in
  let ms := (t mod 86400000)%Z in
  let '(y, m, d) := civilFromDays days in
  let year :=
    if ((0 <=? y) && (y <=? 9999))%Z then digits 4 y
    else (if (y <? 0)%Z then lit "-" else lit "+") ++ digits 6 (Z.abs y) in
  year ++ lit "-" ++ digits 2 m ++ lit "-" ++ digits 2 d ++ lit "T"
  ++ digits 2 (ms / 3600000)%Z ++ lit ":" ++ digits 2 ((ms / 60000) mod 60)%Z
  ++ lit ":" ++ digits 2 ((ms / 1000) mod 60)%Z ++ lit "."
  ++ digits 3 (ms mod 1000)%Z ++ lit "Z".

(** The stored text of instant [a] is less than that of [b]; is at most
    that of [b]. *)
Definition isoLtb (a b : Z) : bool := textLtb (toISOString a) (toISOString b).
Definition isoLeb (a b : Z) : bool := negb (isoLtb b a).

(** [MIN] and [MAX] of two stored timestamps. *)
Definition isoMin (a b : Z) : Z := if isoLtb b a then b else a.
Definition isoMax (a b : Z) : Z := if isoLtb a b then b else a.

(** [ORDER BY timestamp ASC] *)
Definition orderAsc : list Row -> list Row :=
  sortBy (fun x y => isoLtb (row_timestamp x) (row_timestamp y)).

(** [ORDER BY timestamp DESC] *)
Definition orderDesc : list Row -> list Row :=
  sortBy (fun x y => isoLtb (row_timestamp y) (row_timestamp x)).

(** [getRecordsBySession] *)
Definition getRecordsBySession (sid : jsstring) (d : Database)
  : Outcome (list DialogueRecord) :=
  withDb d (fun rows =>
    Returned (List.map recordOf
      (orderAsc (filter (fun w => eqb (row_session_id w) sid) rows)))).

(** The SQL operator [LIKE]: [%] matches any run of characters, [_] one
    character, and letters of the Basic Latin block match without regard
    to case. *)
Definition dropChar (s : jsstring) : option jsstring :=
  match s with
  | [] => None
  | c :: s' =>
    match s' with
    | e :: s'' => if isHighSurrogate c && isLowSurrogate e then Some s''
                  else Some s'
    | [] => Some s'
    end
  end.

Fixpoint like (p s : jsstring) {struct p} : bool :=
  match p with
  | [] => match s with [] => true | _ :: _ => false end
  | c :: p' =>
    if (c =? 37)%N then
      (fix star (t : jsstring) : bool :=
         like p' t || match t with [] => false | _ :: t' => star t' end) s
    else if (c =? 95)%N then
      match dropChar s with Some s' => like p' s' | None => false end
    else
      match s with
      | [] => false
      | d :: s' => (asciiLowerUnit c =? asciiLowerUnit d)%N && like p' s'
      end
  end.

(** [LIKE] reads its two texts up to their first NUL. *)
Definition likeText (p s : jsstring) : bool := like (cutNul p) (cutNul s).

(** The store refuses a [LIKE] pattern of more than 50000 bytes; the
    model of [searchRecords] is that of the patterns within the limit. *)
Definition withinLikeLimit (p : jsstring) : bool :=
  (N.of_nat (List.length (utf8Bytes p)) <=? 50000)%N.

(** [timestamp >= ?] and [timestamp <= ?], when the bound is given. *)
Definition optLeb (lo : option Z) (x : Z) : bool :=
  match lo with Some a => isoLeb a x | None => true end.

Definition optGeb (hi : option Z) (x : Z) : bool :=
  match hi with Some b => isoLeb x b | None => true end.

(** [searchRecords]: [content LIKE '%keyword%'] with the optional time
    bounds, newest first. *)
Definition searchRecords (kw : jsstring) (st et : option Z) (d : Database)
  : Outcome (list DialogueRecord) :=
  withDb d (fun rows =>
    Returned (List.map recordOf
      (orderDesc
         (filter (fun w => likeText (lit "%" ++ kw ++ lit "%") (row_content w)
                           && optLeb st (row_timestamp w)
                           && optGeb et (row_timestamp w)) rows)))).

(** The row of the aggregate query of [getSessionDetail]; with
    [GROUP BY session_id] a session without rows yields no row at all,
    which [db.get] reports as [undefined]. *)
Record SessionInfo := {
  info_sessionId : jsstring;
  info_totalRecords : nat;
  info_startTime : Z;
  info_endTime : Z;
  info_speakers : list Speaker
}.

Fixpoint distinctSpeakers (l : list Speaker) : list Speaker :=
  match l with
  | [] => []
  | s :: l' =>
    s :: filter (fun x => negb (Speaker_eqb x s)) (distinctSpeakers l')
  end.

Definition sessionInfoQuery (sid : jsstring) (rows : list Row)
  : option SessionInfo :=
  match filter (fun w => eqb (row_session_id w) sid) rows with
  | [] => None
  | w :: ws =>
    Some {| info_sessionId := row_session_id w;
            info_totalRecords := List.length (w :: ws);
            info_startTime :=
              fold_right isoMin (row_timestamp w) (List.map row_timestamp ws);
            info_endTime :=
              fold_right isoMax (row_timestamp w) (List.map row_timestamp ws);
            info_speakers := distinctSpeakers (List.map row_speaker (w :: ws)) |}
  end.

(** A number in a template literal. *)
Definition decimalZ (z : Z) : jsstring :=
  if (z <? 0)%Z then lit "-" ++ decimal (Z.to_nat (- z))
  else decimal (Z.to_nat z).

(** [formatDuration]; [Math.floor] of a quotient is [Z.div]. *)
Definition formatDuration (ms : Z) : jsstring :=
  let seconds := (ms / 1000)%Z in
  let minutes := (seconds / 60)%Z in
  let hours := (minutes / 60)%Z in
  if (0 <? hours)%Z then
    decimalZ hours ++ lit "小时" ++ decimalZ (Z.rem minutes 60) ++ lit "分钟"
  else if (0 <? minutes)%Z then
    decimalZ minutes ++ lit "分钟" ++ decimalZ (Z.rem seconds 60) ++ lit "秒"
  else decimalZ seconds ++ lit "秒".

(** [getSessionDetail].  The executor of the returned promise runs inside
    [try { ... } catch (error) { reject(error) }]: the read of
    [sessionInfo.startTime] on an [undefined] row throws a [TypeError],
    which rejects the promise. *)
Definition getSessionDetail (sid : jsstring) (d : Database)
  : Outcome SessionDetail :=
  withDb d (fun rows =>
    let sessionInfo := sessionInfoQuery sid rows in
    match getRecordsBySession sid d with
    | Thrown e => Thrown e
    | Returned recs =>
      match sessionInfo with
      | None => Thrown TypeError
      | Some info =>
        let durationMs := (info_endTime info - info_startTime info)%Z in
        Returned
          {| detailSessionId := info_sessionId info;
             sessionName := lit "会话 " ++ substring sid 0 8 ++ lit "...";
             records := recs;
             totalRecords := info_totalRecords info;
             duration := formatDuration durationMs;
             speakers := List.map speakerName (info_speakers info);
             detailStartTime := info_startTime info;
             detailEndTime := info_endTime info |}
      end
    end).

(** ** Regular expressions built from a keyword

    [new RegExp(source, 'g')] is modelled on the fragment whose patterns are
    sequences of ordinary characters and of the wildcard [.]; a source
    holding another syntax character is outside the fragment, and what the
    host does with it (a count of matches, or a [SyntaxError]) is a
    parameter of the development. *)

Inductive Atom :=
| Char (c : N)
| AnyChar.

Definition isSyntaxCharacter (c : N) : bool :=
  existsb (N.eqb c) (lit "^$\.*+?()[]{}|").

Definition isLineTerminator (c : N) : bool :=
  ((c =? 10) || (c =? 13) || (c =? 8232) || (c =? 8233))%N.

Fixpoint compile (source : jsstring) : option (list Atom) :=
  match source with
  | [] => Some []
  | c :: source' =>
    match compile source' with
    | None => None
    | Some atoms =>
      if (c =? 46)%N then Some (AnyChar :: atoms)
      else if isSyntaxCharacter c then None
      else Some (Char c :: atoms)
    end
  end.

Definition atomMatches (a : Atom) (c : N) : bool :=
  match a with
  | Char d => (d =? c)%N
  | AnyChar => negb (isLineTerminator c)
  end.

(** Does the pattern match at the head of [s]? *)
Fixpoint matchAt (pat : list Atom) (s : jsstring) {struct pat} : bool :=
  match pat, s with
  | [], _ => true
  | _ :: _, [] => false
  | a :: pat', c :: s' => atomMatches a c && matchAt pat' s'
  end.

(** The number of matches a global scan finds: leftmost first, each scan
    resuming where the previous match ended; [skip] counts the characters
    of the last match still to be passed. *)
Fixpoint countMatches (pat : list Atom) (skip : nat) (s : jsstring) : nat :=
  match s with
  | [] => match skip with
          | O => if matchAt pat [] then 1 else 0
          | S _ => 0
          end
  | _ :: s' =>
    match skip with
    | S k => countMatches pat k s'
    | O => if matchAt pat s
           then S (countMatches pat (List.length pat - 1) s')
           else countMatches pat 0 s'
    end
  end.

(** ** The relevance ranker ([SearchService]) *)

Section SearchService.

(** [String.prototype.toLowerCase] *)
Variable toLowerCase : jsstring -> jsstring.

(** The host's [(content.match(new RegExp(source, 'g')) || []).length]
    for a source outside the modelled fragment. *)
Variable hostMatchCount : jsstring -> jsstring -> Outcome nat.

Definition matchCount (source content : jsstring) : Outcome nat :=
  match compile source with
  | Some pat => Returned (countMatches pat 0 content)
  | None => hostMatchCount source content
  end.

(** [criteria.keyword || ''] *)
Definition orEmpty (k : option jsstring) : jsstring :=
  match k with Some s => s | None => [] end.

(** [indexOf] as the number the source computes with. *)
Definition indexOfZ (s p : jsstring) : Z :=
  match indexOf s p with Some n => Z.of_nat n | None => (-1)%Z end.

Definition calculateRelevance (record : DialogueRecord) (keyword : jsstring)
  : Outcome Q :=
  if negb (truthy keyword) then Returned (5 # 10)
  else
    let content := toLowerCase (content record) in
    let keywordLower := toLowerCase keyword in
    if includes content keywordLower then
      match matchCount keywordLower content with
      | Thrown e => Thrown e
      | Returned keywordCount =>
        let position := indexOfZ content keywordLower in
        let positionScore :=
          Qmax 0 (1 - inject_Z position
                      / inject_Z (Z.of_nat (List.length content))) in
        Returned (Qmin 1 ((3 # 10) + inject_Z (Z.of_nat keywordCount) * (2 # 10)
                          + positionScore * (5 # 10)))
      end
    else Returned 0.

(** The excerpt pushed for a match at [index]. *)
Definition highlightAt (content keyword : jsstring) (index : nat) : jsstring :=
  let start := Z.max 0 (Z.of_nat index - 20) in
  let end_ := Z.min (Z.of_nat (List.length content))
                    (Z.of_nat index + Z.of_nat (List.length keyword) + 20) in
  substring content (Z.to_nat start) (Z.to_nat end_).

(** The [while (index !== -1)] loop of [extractHighlights]. *)
Fixpoint highlightLoop (fuel : nat) (content keyword contentLower
                        keywordLower : jsstring) (index : option nat)
                       (highlights : list jsstring) : list jsstring :=
  match fuel with
  | O => highlights
  | S fuel' =>
    match index with
    | None => highlights
    | Some i =>
      highlightLoop fuel' content keyword contentLower keywordLower
        (indexOfFrom contentLower keywordLower (i + 1))
        (highlights ++ [highlightAt content keyword i])
    end
  end.

Definition extractHighlights (content keyword : jsstring) : list jsstring :=
  if negb (truthy keyword) then []
  else
    let keywordLower := toLowerCase keyword in
    let contentLower := toLowerCase content in
    highlightLoop (List.length contentLower + 2) content keyword
      contentLower keywordLower (indexOf contentLower keywordLower) [].

(** The predicate of [records.filter] in [search]. *)
Definition matchesCriteria (criteria : SearchCriteria)
                           (record : DialogueRecord) : bool :=
  if match criteriaSpeaker criteria with
     | Some s => negb (Speaker_eqb (speaker record) s)
     | None => false
     end
  then false
  else if match criteriaRecordType criteria with
          | Some t => negb (RecordType_eqb (recordType record) t)
          | None => false
          end
  then false
  else if match fileExtension criteria, filePath record with
          | Some ext, Some path =>
            truthy ext && truthy path && negb (endsWith path ext)
          | _, _ => false
          end
  then false
  else true.

(** [Array.prototype.map] with a callback that may throw. *)
Fixpoint mapOutcome {A B} (f : A -> Outcome B) (l : list A)
  : Outcome (list B) :=
  match l with
  | [] => Returned []
  | x :: l' =>
    match f x with
    | Thrown e => Thrown e
    | Returned y =>
      match mapOutcome f l' with
      | Thrown e => Thrown e
      | Returned ys => Returned (y :: ys)
      end
    end
  end.

Definition toSearchResult (keyword : jsstring) (r : DialogueRecord)
  : Outcome SearchResult :=
  match calculateRelevance r keyword with
  | Thrown e => Thrown e
  | Returned rel =>
    Returned {| record := r; relevance := rel;
                highlights := extractHighlights (content r) keyword |}
  end.

(** The comparator [(a, b) => b.relevance - a.relevance] is negative,
    and [a] sorts first, when [a] is the more relevant. *)
Definition moreRelevant (a b : SearchResult) : bool :=
  negb (Qle_bool (relevance a) (relevance b)).

(** [search]; its [catch] logs the error and throws it again. *)
Definition search (criteria : SearchCriteria) (d : Database)
  : Outcome (list SearchResult) :=
  let kw := orEmpty (keyword criteria) in
  match searchRecords kw (startTime criteria) (endTime criteria) d with
  | Thrown e => Thrown e
  | Returned recs =>
    let filteredRecords := filter (matchesCriteria criteria) recs in
    match mapOutcome (toSearchResult kw) filteredRecords with
    | Thrown e => Thrown e
    | Returned searchResults => Returned (sortBy moreRelevant searchResults)
    end
  end.

End SearchService.

(** ** The line classifier ([services/DialogueListenerService.ts]) *)

Inductive LogEntry :=
| ConsoleLog (message : jsstring)
| ConsoleError (message : jsstring) (e : Error).

(** The listener, its store and what it has written to the console.
    [saveCalls] lists the records handed to [saveRecord], whether the
    call succeeded or not; [tick] counts the reads of the clock and of the
    random source. *)
Record World := {
  db : Database;
  currentSessionId : jsstring;
  console : list LogEntry;
  saveCalls : list DialogueRecord;
  tick : nat
}.

(** Computations that read and change the world and may throw. *)
Definition M (A : Type) : Type := World -> Outcome A * World.

Definition ret {A} (a : A) : M A := fun w => (Returned a, w).

Definition bind {A B} (m : M A) (k : A -> M B) : M B :=
  fun w => match m w with
           | (Returned a, w') => k a w'
           | (Thrown e, w') => (Thrown e, w')
           end.

Definition tryCatch {A} (body : M A) (handler : Error -> M A) : M A :=
  fun w => match body w with
           | (Returned a, w') => (Returned a, w')
           | (Thrown e, w') => handler e w'
           end.

Notation "x <- m ;; k" := (bind m (fun x => k))
  (at level 61, m at next level, right associativity).
Notation "m ;;; k" := (bind m (fun _ => k))
  (at level 61, right associativity).

Definition consoleLog (message : jsstring) : M unit :=
  fun w => (Returned tt,
            {| db := db w; currentSessionId := currentSessionId w;
               console := console w ++ [ConsoleLog message];
               saveCalls := saveCalls w; tick := tick w |}).

Definition consoleError (message : jsstring) (e : Error) : M unit :=
  fun w => (Returned tt,
            {| db := db w; currentSessionId := currentSessionId w;
               console := console w ++ [ConsoleError message e];
               saveCalls := saveCalls w; tick := tick w |}).

(** [await this.databaseService.saveRecord(record)] *)
Definition awaitSaveRecord (r : DialogueRecord) : M unit :=
  fun w => let (o, d) := saveRecord r (db w) in
           (o, {| db := d; currentSessionId := currentSessionId w;
                  console := console w;
                  saveCalls := saveCalls w ++ [r]; tick := tick w |}).

Definition getSessionId : M jsstring :=
  fun w => (Returned (currentSessionId w), w).

(** For each list of pieces [forEach] and [for ... of] run the body in
    turn. *)
Fixpoint forEach {A} (f : A -> M unit) (l : list A) : M unit :=
  match l with
  | [] => ret tt
  | x :: l' => f x ;;; forEach f l'
  end.

Section DialogueListenerService.

(** [String.prototype.toLowerCase] *)
Variable toLowerCase : jsstring -> jsstring.

(** What the n-th read of the random source and of the clock yields:
    the whole text of [generateRecordId()], and [new Date()]. *)
Variable recordIdAt : nat -> jsstring.
Variable dateAt : nat -> Z.

Definition generateRecordId : M jsstring :=
  fun w => (Returned (recordIdAt (tick w)),
            {| db := db w; currentSessionId := currentSessionId w;
               console := console w; saveCalls := saveCalls w;
               tick := S (tick w) |}).

Definition newDate : M Z :=
  fun w => (Returned (dateAt (tick w)),
            {| db := db w; currentSessionId := currentSessionId w;
               console := console w; saveCalls := saveCalls w;
               tick := S (tick w) |}).

Definition recordDialogue (speaker : Speaker) (content : jsstring) : M unit :=
  rid <- generateRecordId ;;
  sid <- getSessionId ;;
  now <- newDate ;;
  let record := {| id := rid; sessionId := sid; timestamp := now;
                   speaker := speaker; content := content;
                   recordType := DIALOGUE; filePath := None |} in
  tryCatch
    (awaitSaveRecord record ;;;
     consoleLog (lit "记录对话: " ++ speakerName speaker ++ lit " - "
                 ++ substring content 0 50 ++ lit "..."))
    (fun error => consoleError (lit "记录对话失败:") error).

Definition terminalKeywords : list jsstring :=
  List.map lit
    ["终端"; "terminal"; "命令"; "command"; "npm"; "git"; "cd"; "ls"; "dir";
     "编译"; "compile"; "构建"; "build"; "运行"; "run"; "执行"; "execute";
     "错误"; "error"; "警告"; "warning"; "信息"; "info"; "调试"; "debug";
     "断点"; "breakpoint"; "工具调用"; "tool_call"; "Tool:"; "工具:";
     "创建"; "create"; "关闭"; "close"; "开始"; "start"; "结束"; "end"]%string.

Definition isTerminalOrSystemMessage (line : jsstring) : bool :=
  existsb (fun keyword =>
             includes (toLowerCase line) (toLowerCase keyword))
          terminalKeywords.

(** [/^\s*\d+\s*$/] *)
Definition isDigit (c : N) : bool := ((48 <=? c) && (c <=? 57))%N.

Definition pureNumber (s : jsstring) : bool :=
  let afterSpace := dropWhile isWhiteSpace s in
  let afterDigits := dropWhile isDigit afterSpace in
  negb (Nat.eqb (List.length afterDigits) (List.length afterSpace))
  && forallb isWhiteSpace afterDigits.

(** [/^[\s\-\*]+$/] *)
Definition onlySymbols (s : jsstring) : bool :=
  truthy s && forallb (fun c => isWhiteSpace c || (c =? 45) || (c =? 42))%N s.

(** The pattern [^(OK|成功|失败|错误|完成|开始|结束)$] with flag [i]: of
    the alternatives only [OK] has letters with two cases. *)
Definition statusWord (s : jsstring) : bool :=
  existsb (eqb s)
    (List.map lit ["OK"; "Ok"; "oK"; "ok"; "成功"; "失败"; "错误"; "完成";
                   "开始"; "结束"]%string).

Definition systemPatterns : list (jsstring -> bool) :=
  [ pureNumber;
    onlySymbols;
    statusWord;
    (fun s => startsWith s (lit "执行命令:"));
    (fun s => startsWith s (lit "工具调用:"));
    (fun s => startsWith s (lit "终端已"));
    (fun s => startsWith s (lit "调试会话")) ].

Definition isRealChatContent (content : jsstring) : bool :=
  let minLength := 10%nat in
  let maxLength := 5000%nat in
  if Nat.ltb (List.length content) minLength
     || Nat.ltb maxLength (List.length content)
  then false
  else negb (existsb (fun pattern => pattern content) systemPatterns).

Definition dialogueIndicators : list jsstring :=
  List.map lit
    ["你好"; "请问"; "谢谢"; "帮助"; "问题"; "回答"; "解释"; "说明";
     "如何"; "什么"; "为什么"; "怎样"; "可以"; "需要"; "想要"; "希望";
     "我觉得"; "我认为"; "建议"; "推荐"; "示例"; "代码"; "实现";
     "功能"; "特性"; "需求"; "要求"; "任务"; "目标"; "目的"]%string.

Definition isPureDialogueContent (line : jsstring) : bool :=
  existsb (fun indicator => includes line indicator) dialogueIndicators
  && Nat.ltb 20 (List.length line).

Definition determineSpeakerFromContext (line : jsstring) : option Speaker :=
  if includes line (lit "?") || includes line (lit "？")
     || includes line (lit "请问") || includes line (lit "如何")
     || includes line (lit "什么") || includes line (lit "为什么")
  then Some USER
  else if includes line (lit "代码") || includes line (lit "实现")
          || includes line (lit "功能") || includes line (lit "工具")
  then Some BUILDER
  else if Nat.ltb 100 (List.length line)
  then Some CHAT
  else None.

Fixpoint extractContent (line : jsstring) (markers : list jsstring)
  : option jsstring :=
  match markers with
  | [] => None
  | marker :: markers' =>
    match indexOf line marker with
    | Some index =>
      Some (trim (substring line (index + List.length marker)
                            (List.length line)))
    | None => extractContent line markers'
    end
  end.

(** [content && this.isRealChatContent(content)] followed by the call of
    [recordDialogue]. *)
Definition recordIfReal (speaker : Speaker) (content : option jsstring)
  : M unit :=
  match content with
  | Some content =>
    if truthy content && isRealChatContent content
    then recordDialogue speaker content
    else ret tt
  | None => ret tt
  end.

Definition analyzeOutputLine (line : jsstring) : M unit :=
  if isTerminalOrSystemMessage line then ret tt
  else if includes line (lit "[Builder]") || startsWith line (lit "Builder:")
  then recordIfReal BUILDER
         (extractContent line (List.map lit ["[Builder]"; "Builder:"]%string))
  else if includes line (lit "[Chat]") || startsWith line (lit "Chat:")
          || startsWith line (lit "Assistant:")
  then recordIfReal CHAT
         (extractContent line
            (List.map lit ["[Chat]"; "Chat:"; "Assistant:"]%string))
  else if includes line (lit "[User]") || startsWith line (lit "User:")
          || startsWith line (lit "USER:")
  then recordIfReal USER
         (extractContent line
            (List.map lit ["[User]"; "User:"; "USER:"]%string))
  else if isPureDialogueContent line then
    match determineSpeakerFromContext line with
    | Some speaker =>
      if isRealChatContent line then recordDialogue speaker line else ret tt
    | None => ret tt
    end
  else ret tt.

(** [processOutputContent] on the text of an output document.  The source
    does not await [analyzeOutputLine]; here the save of a line completes
    before the next line is read. *)
Definition processOutputContent (text : jsstring) : M unit :=
  forEach (fun line =>
             if truthy (trim line) then analyzeOutputLine (trim line)
             else ret tt)
          (split 10 text).

(** *** Lifecycle events of the host *)

Inductive Breakpoint :=
| SourceBreakpoint (fsPath : jsstring) (line : nat)
| FunctionBreakpoint (functionName : jsstring)
| OtherBreakpoint.

Inductive HostEvent :=
| OutputChanged (text : jsstring)
| TerminalOpened (name : jsstring)
| TerminalClosed (name : jsstring)
| TerminalStateChanged (name : jsstring) (isInteractedWith : bool)
| DebugSessionStarted (name : jsstring)
| DebugSessionTerminated (name : jsstring)
| DebugOutput (output : jsstring)
| BreakpointsChanged (added removed : list Breakpoint).

Definition breakpointRecord (verb : jsstring) (b : Breakpoint) : M unit :=
  match b with
  | SourceBreakpoint fsPath line =>
    recordDialogue USER
      (verb ++ lit "断点: " ++ fsPath ++ lit ":" ++ decimal (line + 1))
  | FunctionBreakpoint functionName =>
    recordDialogue USER (verb ++ lit "函数断点: " ++ functionName)
  | OtherBreakpoint => ret tt
  end.

(** The handlers registered by [setupOutputPanelListener],
    [setupTerminalListener] and [setupDebugConsoleListener]. *)
Definition handleEvent (ev : HostEvent) : M unit :=
  match ev with
  | OutputChanged text => processOutputContent text
  | TerminalOpened name => recordDialogue BUILDER (lit "终端已创建: " ++ name)
  | TerminalClosed name => recordDialogue BUILDER (lit "终端已关闭: " ++ name)
  | TerminalStateChanged name isInteractedWith =>
    if isInteractedWith
    then recordDialogue USER (lit "终端交互: " ++ name)
    else ret tt
  | DebugSessionStarted name =>
    recordDialogue BUILDER (lit "调试会话开始: " ++ name)
  | DebugSessionTerminated name =>
    recordDialogue BUILDER (lit "调试会话结束: " ++ name)
  | DebugOutput output =>
    if truthy output
    then recordDialogue BUILDER (lit "调试输出: " ++ output)
    else ret tt
  | BreakpointsChanged added removed =>
    forEach (breakpointRecord (lit "设置")) added ;;;
    forEach (breakpointRecord (lit "移除")) removed
  end.

End DialogueListenerService.

(** ** Further queries of the store and their callers *)


(** [SELECT DISTINCT]: the values in the order of their first row. *)
Fixpoint distinctIds (l : list jsstring) : list jsstring :=
  match l with
  | [] => []
  | s :: l' => s :: filter (fun x => negb (eqb x s)) (distinctIds l')
  end.

(** [MAX(timestamp)] over the rows of a session; a session without rows
    has no maximum, which sorts as the least value. *)
Definition lastTimestampOf (rows : list Row) (sid : jsstring) : option Z :=
  option_map info_endTime (sessionInfoQuery sid rows).

Definition optLtb (a b : option Z) : bool :=
  match a, b with
  | Some x, Some y => isoLtb x y
  | None, Some _ => true
  | _, None => false
  end.

(** [getAllSessions]: the distinct session ids, the session with the most
    recent record first.  Sessions with equal last timestamps keep the
    order of their first rows. *)
Definition getAllSessions (d : Database) : Outcome (list jsstring) :=
  withDb d (fun rows =>
    Returned
      (sortBy (fun a b => optLtb (lastTimestampOf rows b)
                                 (lastTimestampOf rows a))
              (distinctIds (List.map row_session_id rows)))).



(** The loop of [DialogueRecorderPanel.loadRecords]:
    [allRecords = allRecords.concat(records)] for each session in turn. *)
Fixpoint concatSessions (d : Database) (sessions : list jsstring)
                        (allRecords : list DialogueRecord)
  : Outcome (list DialogueRecord) :=
  match sessions with
  | [] => Returned allRecords
  | sessionId :: sessions' =>
    match getRecordsBySession sessionId d with
    | Thrown e => Thrown e
    | Returned recs => concatSessions d sessions' (allRecords ++ recs)
    end
  end.

(** The records [loadRecords] posts to the view: those of every session,
    sorted by [(a, b) => b.timestamp - a.timestamp]. *)
Definition loadRecords (d : Database) : Outcome (list DialogueRecord) :=
  match getAllSessions d with
  | Thrown e => Thrown e
  | Returned sessions =>
    match concatSessions d sessions [] with
    | Thrown e => Thrown e
    | Returned allRecords =>
      Returned (sortBy (fun a b => (timestamp b <? timestamp a)%Z) allRecords)
    end
  end.

(** The one-criterion searches of [SearchService]. *)
Definition searchBySpeaker (toLowerCase : jsstring -> jsstring)
  (hostMatchCount : jsstring -> jsstring -> Outcome nat) (sp : Speaker)
  (d : Database) : Outcome (list SearchResult) :=
  search toLowerCase hostMatchCount
    {| keyword := None; startTime := None; endTime := None;
       criteriaSpeaker := Some sp; criteriaRecordType := None;
       fileExtension := None |} d.

Definition searchByTimeRange (toLowerCase : jsstring -> jsstring)
  (hostMatchCount : jsstring -> jsstring -> Outcome nat) (st et : Z)
  (d : Database) : Outcome (list SearchResult) :=
  search toLowerCase hostMatchCount
    {| keyword := None; startTime := Some st; endTime := Some et;
       criteriaSpeaker := None; criteriaRecordType := None;
       fileExtension := None |} d.

(** ** The vocabulary of the specification *)

(** [p] occurs in [s]; [p] occurs in [s] at index [i]. *)
Definition Occurs (p s : jsstring) : Prop :=
  exists pre post, s = pre ++ p ++ post.

Definition OccursAt (p s : jsstring) (i : nat) : Prop :=
  exists pre post, s = pre ++ p ++ post /\ List.length pre = i.

(** The number of non-overlapping occurrences of a non-empty keyword,
    counted from the left. *)
Fixpoint spec_countFrom (fuel : nat) (kw text : jsstring) : nat :=
  match fuel with
  | O => O
  | S fuel' =>
    match text with
    | [] => O
    | _ :: text' =>
      if startsWith text kw
      then S (spec_countFrom fuel' kw (skipn (List.length kw) text))
      else spec_countFrom fuel' kw text'
    end
  end.

Definition spec_occurrenceCount (kw text : jsstring) : nat :=
  spec_countFrom (List.length text) kw text.

(** [min(1, 0.3 + occurrenceCount*0.2 + positionScore*0.5)] with
    [positionScore = max(0, 1 - firstOccurrenceIndex/len(text))]. *)
Definition spec_positionScore (first len : nat) : Q :=
  Qmax 0 (1 - inject_Z (Z.of_nat first) / inject_Z (Z.of_nat len)).

Definition spec_score (count first len : nat) : Q :=
  Qmin 1 ((3 # 10) + inject_Z (Z.of_nat count) * (2 # 10)
          + spec_positionScore first len * (5 # 10)).

(** The excerpt of [text] around a match of length [klen] at index [i]:
    20 characters on either side, clipped to the text. *)
Definition spec_window (text : jsstring) (klen i : nat) : jsstring :=
  firstn (Nat.min (List.length text) (i + klen + 20) - (i - 20))
         (skipn (i - 20) text).

(** The indicators of a question and of implementation talk. *)
Definition spec_hasQuestion (line : jsstring) : Prop :=
  Occurs (lit "?") line \/ Occurs (lit "？") line
  \/ Occurs (lit "请问") line \/ Occurs (lit "如何") line
  \/ Occurs (lit "什么") line \/ Occurs (lit "为什么") line.

Definition spec_hasImplementation (line : jsstring) : Prop :=
  Occurs (lit "代码") line \/ Occurs (lit "实现") line
  \/ Occurs (lit "功能") line \/ Occurs (lit "工具") line.

(** The precedence of role inference: question, implementation, length. *)
Inductive spec_inferredRole (line : jsstring) : option Speaker -> Prop :=
| infer_user :
    spec_hasQuestion line -> spec_inferredRole line (Some USER)
| infer_builder :
    ~ spec_hasQuestion line -> spec_hasImplementation line ->
    spec_inferredRole line (Some BUILDER)
| infer_chat :
    ~ spec_hasQuestion line -> ~ spec_hasImplementation line ->
    (100 < List.length line)%nat -> spec_inferredRole line (Some CHAT)
| infer_discard :
    ~ spec_hasQuestion line -> ~ spec_hasImplementation line ->
    (List.length line <= 100)%nat -> spec_inferredRole line None.

(** A line reaches implicit-content inference when it is not noise, holds
    no role marker and looks like dialogue. *)
Definition reachesInference (toLowerCase : jsstring -> jsstring)
                            (line : jsstring) : bool :=
  negb (isTerminalOrSystemMessage toLowerCase line)
  && negb (includes line (lit "[Builder]") || startsWith line (lit "Builder:"))
  && negb (includes line (lit "[Chat]") || startsWith line (lit "Chat:")
           || startsWith line (lit "Assistant:"))
  && negb (includes line (lit "[User]") || startsWith line (lit "User:")
           || startsWith line (lit "USER:"))
  && isPureDialogueContent line.

(** The rows of a session held by the store. *)
Definition sessionRows (sid : jsstring) (d : Database) : list Row :=
  match d with
  | Ready rows => filter (fun w => eqb (row_session_id w) sid) rows
  | _ => []
  end.

(** Does the record carry a file path that ends with the extension? *)
Definition hasExtension (ext : jsstring) (r : DialogueRecord) : bool :=
  match filePath r with
  | Some path => endsWith path ext
  | None => false
  end.

(** The rows of the store, none when it is unavailable. *)
Definition storedRows (d : Database) : list Row :=
  match d with Ready rows => rows | _ => [] end.

(** World [w'] holds the rows of [w] followed by rows whose text
    satisfies [P]. *)
Definition Appends (P : jsstring -> Prop) (w w' : World) : Prop :=
  exists added,
    storedRows (db w') = storedRows (db w) ++ added
    /\ Forall (fun row => P (row_content row)) added.

(** A computation that returns normally and only appends such rows. *)
Definition Safe (P : jsstring -> Prop) (m : M unit) : Prop :=
  forall w, fst (m w) = Returned tt /\ Appends P w (snd (m w)).

(** The length bounds of the content gate. *)
Definition withinGate (text : jsstring) : Prop :=
  (10 <= List.length text <= 5000)%nat.

(** Two elements are in order when the later one does not have to come
    strictly before the earlier one. *)
Definition inOrder {A : Type} (before : A -> A -> bool) (a b : A) : Prop :=
  before b a = false.

(** The indices at which [p] occurs in [s], in ascending order. *)
Definition occurrencePositions (p s : jsstring) : list nat :=
  filter (fun i => startsWith (skipn i s) p) (seq 0 (S (List.length s))).

(** The result built for a record when there is no keyword. *)
Definition neutralResult (r : DialogueRecord) : SearchResult :=
  {| record := r; relevance := 5 # 10; highlights := [] |}.

(** The marker tests of [analyzeOutputLine]. *)
Definition hasBuilderMarker (line : jsstring) : bool :=
  includes line (lit "[Builder]") || startsWith line (lit "Builder:").

Definition hasChatMarker (line : jsstring) : bool :=
  includes line (lit "[Chat]") || startsWith line (lit "Chat:")
  || startsWith line (lit "Assistant:").

Definition hasUserMarker (line : jsstring) : bool :=
  includes line (lit "[User]") || startsWith line (lit "User:")
  || startsWith line (lit "USER:").

(** The call of [recordDialogue] that [analyzeOutputLine] makes for a
    line, if it makes one. *)
Definition gated (speaker : Speaker) (content : option jsstring)
  : option (Speaker * jsstring) :=
  match content with
  | Some c => if truthy c && isRealChatContent c then Some (speaker, c)
              else None
  | None => None
  end.

Definition classify (toLowerCase : jsstring -> jsstring) (line : jsstring)
  : option (Speaker * jsstring) :=
  if isTerminalOrSystemMessage toLowerCase line then None
  else if hasBuilderMarker line then
    gated BUILDER
      (extractContent line (List.map lit ["[Builder]"; "Builder:"]%string))
  else if hasChatMarker line then
    gated CHAT
      (extractContent line
         (List.map lit ["[Chat]"; "Chat:"; "Assistant:"]%string))
  else if hasUserMarker line then
    gated USER
      (extractContent line (List.map lit ["[User]"; "User:"; "USER:"]%string))
  else if isPureDialogueContent line then
    match determineSpeakerFromContext line with
    | Some speaker =>
      if isRealChatContent line then Some (speaker, line) else None
    | None => None
    end
  else None.

(** A computation whose every run relates the world before to the world
    after by [T]. *)
Definition Keeps (T : World -> World -> Prop) (m : M unit) : Prop :=
  forall w, T w (snd (m w)).

(** The listener keeps its session, and the store holds the rows it held
    followed by rows that satisfy [R]. *)
Definition Extends (R : jsstring -> Row -> Prop) (w w' : World) : Prop :=
  currentSessionId w' = currentSessionId w
  /\ exists added,
       storedRows (db w') = storedRows (db w) ++ added
       /\ Forall (R (currentSessionId w)) added.

(** A dialogue row of session [sid]. *)
Definition dialogueRowOf (sid : jsstring) (row : Row) : Prop :=
  row_session_id row = sid /\ row_record_type row = DIALOGUE.

(** The ids of the stored rows are pairwise different. *)
Definition uniqueIds (w : World) : Prop :=
  NoDup (List.map row_id (storedRows (db w))).

(** A string is well-formed UTF-16 when every surrogate has its
    partner; such a string comes back from the store, which holds UTF-8,
    as it went in. *)
Fixpoint wellFormed (s : jsstring) : bool :=
  match s with
  | [] => true
  | c :: s' =>
    if isHighSurrogate c then
      match s' with
      | l :: rest => isLowSurrogate l && wellFormed rest
      | [] => false
      end
    else negb (isLowSurrogate c) && wellFormed s'
  end.

(** ** Sample values for concrete evaluation *)

Module Sample.

Definition recordIdAt (n : nat) : jsstring := lit "record_" ++ decimal n.
Definition dateAt (n : nat) : Z := (1700000000000 + Z.of_nat n)%Z.

(** A host that rejects every pattern outside the modelled fragment. *)
Definition hostMatchCount (source content : jsstring) : Outcome nat :=
  Thrown SyntaxError.

Definition emptyWorld : World :=
  {| db := Ready []; currentSessionId := lit "session_1";
     console := []; saveCalls := []; tick := 0 |}.

Definition dialogue (i c : string) : DialogueRecord :=
  {| id := lit i; sessionId := lit "session_1"; timestamp := 1700000000000;
     speaker := USER; content := lit c; recordType := DIALOGUE;
     filePath := None |}.

Definition criteria (k ext : option jsstring) : SearchCriteria :=
  {| keyword := k; startTime := None; endTime := None;
     criteriaSpeaker := None; criteriaRecordType := None;
     fileExtension := ext |}.

(** The keyword "Project" between 1 January 1970 and 18 May 2033. *)
Definition boundedCriteria : SearchCriteria :=
  {| keyword := Some (lit "Project"); startTime := Some 0%Z;
     endTime := Some 2000000000000%Z; criteriaSpeaker := Some USER;
     criteriaRecordType := None; fileExtension := None |}.

(** A stored text in which "project" occurs at indices 10 and 55. *)
Definition projectText : string :=
  "The first project was small and simple, but the second Project grew large over the years".

Definition projectStore : Database := Ready [rowOf (dialogue "r1" projectText)].

(** A stored text whose lower case is longer than the text: thirty
    capital I with dot above (U+0130), then "abc" at index 30. *)
Definition dottedText : jsstring := repeat 304%N 30 ++ lit "abc".

Definition dottedRecord : DialogueRecord :=
  {| id := lit "r1"; sessionId := lit "session_1"; timestamp := 1700000000000;
     speaker := USER; content := dottedText; recordType := DIALOGUE;
     filePath := None |}.

Definition projectResult : SearchResult :=
  {| record := dialogue "r1" projectText;
     relevance := 1;
     highlights :=
       [ lit "The first project was small and simpl";
         lit "ple, but the second Project grew large over the" ] |}.

End Sample.

(** * Properties *)

Unset Implicit Arguments.

(** ** Strings *)

Lemma eqb_eq (a b : jsstring) : eqb a b = true <-> a = b.
Proof.
  unfold eqb. destruct (list_eq_dec N.eq_dec a b); split; congruence.
Qed.

Lemma startsWith_app (p t : jsstring) : startsWith (p ++ t) p = true.
Proof.
  induction p as [|c p IH]; simpl; [reflexivity|].
  now rewrite N.eqb_refl, IH.
Qed.

Lemma startsWith_inv (s p : jsstring) :
  startsWith s p = true -> exists t, s = p ++ t.
Proof.
  revert s. induction p as [|c p IH]; intros s H.
  - now exists s.
  - destruct s as [|d s]; simpl in H; [discriminate|].
    apply andb_prop in H. destruct H as [Hc Hs].
    apply N.eqb_eq in Hc. subst d.
    destruct (IH _ Hs) as [t ->]. now exists t.
Qed.

Lemma indexOf_none (s p : jsstring) :
  indexOf s p = None ->
  forall j, startsWith (skipn j s) p = false.
Proof.
  induction s as [|c s IH]; simpl; intros H j.
  - destruct (startsWith [] p) eqn:E; [discriminate|].
    now destruct j.
  - destruct (startsWith (c :: s) p) eqn:E; [discriminate|].
    destruct (indexOf s p) eqn:Ei; [discriminate|].
    destruct j as [|j]; simpl; [exact E|]. now apply IH.
Qed.

Lemma indexOf_some (s p : jsstring) (i : nat) :
  indexOf s p = Some i ->
  (i <= List.length s)%nat /\ startsWith (skipn i s) p = true
  /\ forall j, (j < i)%nat -> startsWith (skipn j s) p = false.
Proof.
  revert i. induction s as [|c s IH]; simpl; intros i H.
  - destruct (startsWith [] p) eqn:E; [|discriminate].
    injection H as <-. repeat split; auto. intros j Hj; lia.
  - destruct (startsWith (c :: s) p) eqn:E.
    + injection H as <-. repeat split; auto; [lia|]. intros j Hj; lia.
    + destruct (indexOf s p) as [k|] eqn:Ei; [|discriminate].
      injection H as <-. destruct (IH k eq_refl) as (Hk & Hm & Hl).
      repeat split; [lia|exact Hm|].
      intros [|j] Hj; simpl; [exact E|]. apply Hl. lia.
Qed.

Lemma occursAt_startsWith (p s : jsstring) (i : nat) :
  OccursAt p s i <->
  (i <= List.length s)%nat /\ startsWith (skipn i s) p = true.
Proof.
  split.
  - intros (pre & post & -> & <-). split.
    + rewrite length_app. lia.
    + rewrite skipn_app, skipn_all, Nat.sub_diag. simpl.
      apply startsWith_app.
  - intros [Hi H]. destruct (startsWith_inv _ _ H) as [t Ht].
    exists (firstn i s), t. split.
    + rewrite <- Ht. symmetry. apply firstn_skipn.
    + rewrite length_firstn. lia.
Qed.

Lemma includes_occurs (s p : jsstring) :
  includes s p = true <-> Occurs p s.
Proof.
  unfold includes. split.
  - destruct (indexOf s p) as [i|] eqn:E; [|discriminate]. intros _.
    destruct (indexOf_some _ _ _ E) as (Hi & Hm & _).
    destruct (proj2 (occursAt_startsWith p s i) (conj Hi Hm))
      as (pre & post & Hs & _).
    now exists pre, post.
  - intros (pre & post & ->).
    destruct (indexOf (pre ++ p ++ post) p) eqn:E; [reflexivity|].
    pose proof (indexOf_none _ _ E (List.length pre)) as H.
    rewrite skipn_app, skipn_all, Nat.sub_diag in H. simpl in H.
    now rewrite startsWith_app in H.
Qed.

Lemma includes_false (s p : jsstring) :
  includes s p = false <-> ~ Occurs p s.
Proof.
  rewrite <- includes_occurs. destruct (includes s p); split; congruence.
Qed.

Example lit_decodes_code_units :
  lit "终端a" = [32456%N; 31471%N; 97%N]
  /\ List.length (lit "我来帮您创建项目") = 8%nat.
Proof. split; reflexivity. Qed.

Example decimal_renders : decimal 42 = lit "42".
Proof. reflexivity. Qed.

Example split_and_trim :
  List.map trim (split 10 (lit "  [User] hi  
next")) = [lit "[User] hi"; lit "next"].
Proof. vm_compute. reflexivity. Qed.

Example like_wildcards :
  like (lit "%Pro_ect%") (lit "the project") = true
  /\ like (lit "%项目%") (lit "the project") = false.
Proof. split; vm_compute; reflexivity. Qed.

(** ** The line classifier *)

(** C2.  A line in which a keyword of the noise list occurs, compared as
    the code compares them (both sides lower-cased), produces no record:
    the classifier returns at once and leaves the store, the console and
    the list of save calls as they were, whatever else the line holds. *)
Theorem noise_line_yields_no_record
  (toLowerCase : jsstring -> jsstring) (recordIdAt : nat -> jsstring)
  (dateAt : nat -> Z) (line keyword : jsstring) (w : World) :
  In keyword terminalKeywords ->
  Occurs (toLowerCase keyword) (toLowerCase line) ->
  analyzeOutputLine toLowerCase recordIdAt dateAt line w = (Returned tt, w).
Proof.
  intros Hin Hocc. unfold analyzeOutputLine.
  assert (isTerminalOrSystemMessage toLowerCase line = true) as ->.
  { unfold isTerminalOrSystemMessage. apply existsb_exists.
    exists keyword. split; [exact Hin|]. now apply includes_occurs. }
  reflexivity.
Qed.

Lemma noise_line_yields_no_record_witness :
  analyzeOutputLine asciiLower Sample.recordIdAt Sample.dateAt
    (lit "[Builder] npm install 执行完成，请问还需要什么帮助") Sample.emptyWorld
  = (Returned tt, Sample.emptyWorld).
Proof.
  apply (noise_line_yields_no_record asciiLower Sample.recordIdAt
           Sample.dateAt _ (lit "npm")).
  - vm_compute. do 4 right. left. reflexivity.
  - apply includes_occurs. vm_compute. reflexivity.
Defined.

Lemma asciiLower_app (a b : jsstring) :
  asciiLower (a ++ b) = asciiLower a ++ asciiLower b.
Proof. unfold asciiLower. apply map_app. Qed.

(** Under [asciiLower] every line that holds the word "Builder", and so
    every line with a builder marker, is noise: "builder" holds the noise
    keyword "build". *)
Lemma builder_marker_lines_are_noise (line : jsstring) :
  Occurs (lit "Builder") line ->
  isTerminalOrSystemMessage asciiLower line = true.
Proof.
  intros (pre & post & ->). unfold isTerminalOrSystemMessage.
  apply existsb_exists. exists (lit "build"). split.
  - vm_compute. do 12 right. left. reflexivity.
  - apply includes_occurs.
    exists (asciiLower pre), (lit "er" ++ asciiLower post).
    rewrite !asciiLower_app. f_equal.
Qed.

(** C3, as the code has it.  The line "Builder: 我来帮您创建项目" produces no
    record: the text after the marker is "我来帮您创建项目", whose 8
    characters are fewer than the 10 the content gate asks for. *)
Theorem builder_scenario_is_gated
  (toLowerCase : jsstring -> jsstring) (recordIdAt : nat -> jsstring)
  (dateAt : nat -> Z) (w : World) :
  extractContent (lit "Builder: 我来帮您创建项目")
                 (List.map lit ["[Builder]"; "Builder:"]%string)
  = Some (lit "我来帮您创建项目")
  /\ List.length (lit "我来帮您创建项目") = 8%nat
  /\ isRealChatContent (lit "我来帮您创建项目") = false
  /\ analyzeOutputLine toLowerCase recordIdAt dateAt
       (lit "Builder: 我来帮您创建项目") w = (Returned tt, w).
Proof.
  repeat split; try (vm_compute; reflexivity).
  unfold analyzeOutputLine.
  destruct (isTerminalOrSystemMessage toLowerCase _); [reflexivity|].
  vm_compute. reflexivity.
Qed.

(** C3 as stated fails: classifying the line leaves the store empty, so
    there is no record with role BUILDER and text "我来帮您创建项目". *)
Lemma builder_scenario_counterexample :
  ~ exists r,
      storedRows
        (db (snd (analyzeOutputLine asciiLower Sample.recordIdAt Sample.dateAt
                    (lit "Builder: 我来帮您创建项目") Sample.emptyWorld))) = [r]
      /\ row_speaker r = BUILDER
      /\ row_content r = lit "我来帮您创建项目".
Proof.
  intros (r & H & _). vm_compute in H. discriminate H.
Qed.

Lemma determineSpeaker_follows_precedence (line : jsstring) :
  spec_inferredRole line (determineSpeakerFromContext line).
Proof.
  unfold determineSpeakerFromContext.
  destruct (includes line (lit "?")) eqn:Q1;
    [apply infer_user; left; now apply includes_occurs|].
  destruct (includes line (lit "？")) eqn:Q2;
    [apply infer_user; right; left; now apply includes_occurs|].
  destruct (includes line (lit "请问")) eqn:Q3;
    [apply infer_user; do 2 right; left; now apply includes_occurs|].
  destruct (includes line (lit "如何")) eqn:Q4;
    [apply infer_user; do 3 right; left; now apply includes_occurs|].
  destruct (includes line (lit "什么")) eqn:Q5;
    [apply infer_user; do 4 right; left; now apply includes_occurs|].
  destruct (includes line (lit "为什么")) eqn:Q6;
    [apply infer_user; do 5 right; now apply includes_occurs|].
  apply includes_false in Q1, Q2, Q3, Q4, Q5, Q6.
  assert (~ spec_hasQuestion line) as NQ by (unfold spec_hasQuestion; tauto).
  simpl orb.
  destruct (includes line (lit "代码")) eqn:I1;
    [apply infer_builder; [exact NQ|left; now apply includes_occurs]|].
  destruct (includes line (lit "实现")) eqn:I2;
    [apply infer_builder; [exact NQ|right; left; now apply includes_occurs]|].
  destruct (includes line (lit "功能")) eqn:I3;
    [apply infer_builder;
     [exact NQ|do 2 right; left; now apply includes_occurs]|].
  destruct (includes line (lit "工具")) eqn:I4;
    [apply infer_builder; [exact NQ|do 3 right; now apply includes_occurs]|].
  apply includes_false in I1, I2, I3, I4.
  assert (~ spec_hasImplementation line) as NI
      by (unfold spec_hasImplementation; tauto).
  simpl orb.
  destruct (Nat.ltb 100 (List.length line)) eqn:L.
  - apply Nat.ltb_lt in L. now apply infer_chat.
  - apply Nat.ltb_ge in L. now apply infer_discard.
Qed.

(** C5.  For a line that reaches implicit-content inference the role is
    inferred in this order: a question indicator gives USER; otherwise
    implementation vocabulary gives BUILDER; otherwise a length above 100
    gives CHAT; otherwise the line is discarded.  The classifier records
    the line under the inferred role (when the content gate lets it
    through).  In particular a line of more than 100 characters with a
    question mark is given to USER. *)
Theorem role_inference_precedence
  (toLowerCase : jsstring -> jsstring) (recordIdAt : nat -> jsstring)
  (dateAt : nat -> Z) (line : jsstring) (w : World) :
  reachesInference toLowerCase line = true ->
  spec_inferredRole line (determineSpeakerFromContext line)
  /\ analyzeOutputLine toLowerCase recordIdAt dateAt line w
     = match determineSpeakerFromContext line with
       | Some speaker =>
         if isRealChatContent line
         then recordDialogue recordIdAt dateAt speaker line w
         else (Returned tt, w)
       | None => (Returned tt, w)
       end
  /\ ((100 < List.length line)%nat -> Occurs (lit "?") line ->
      determineSpeakerFromContext line = Some USER).
Proof.
  intros H. split; [apply determineSpeaker_follows_precedence|]. split.
  - unfold reachesInference in H.
    repeat (apply andb_prop in H; destruct H as [H ?]).
    unfold analyzeOutputLine.
    repeat match goal with
           | E : negb ?b = true |- _ =>
             apply negb_true_iff in E; rewrite E; clear E
           end.
    match goal with E : isPureDialogueContent _ = true |- _ => rewrite E end.
    destruct (determineSpeakerFromContext line); [|reflexivity].
    destruct (isRealChatContent line); reflexivity.
  - intros _ Hq. unfold determineSpeakerFromContext.
    apply includes_occurs in Hq. now rewrite Hq.
Qed.

Lemma role_inference_precedence_witness :
  determineSpeakerFromContext
    (lit "你好，这个问题我想了很久也没有想明白应该怎么办才好？") = Some USER
  /\ storedRows
       (db (snd (analyzeOutputLine asciiLower Sample.recordIdAt Sample.dateAt
                   (lit "你好，这个问题我想了很久也没有想明白应该怎么办才好？")
                   Sample.emptyWorld)))
     = [ {| row_id := Sample.recordIdAt 0;
            row_session_id := lit "session_1";
            row_timestamp := Sample.dateAt 1;
            row_speaker := USER;
            row_content :=
              lit "你好，这个问题我想了很久也没有想明白应该怎么办才好？";
            row_record_type := DIALOGUE |} ].
Proof.
  destruct (role_inference_precedence asciiLower Sample.recordIdAt
              Sample.dateAt
              (lit "你好，这个问题我想了很久也没有想明白应该怎么办才好？")
              Sample.emptyWorld) as (_ & Hrun & _).
  - vm_compute. reflexivity.
  - split; [vm_compute; reflexivity|].
    rewrite Hrun. vm_compute. reflexivity.
Defined.

(** ** Recording *)

Lemma saveRecord_thrown (r : DialogueRecord) (d d' : Database) (e : Error) :
  saveRecord r d = (Thrown e, d') -> d' = d.
Proof.
  destruct d as [rows| | |]; simpl.
  - destruct (existsb _ rows); intros H; now inversion H.
  - intros H; now inversion H.
  - intros H; now inversion H.
  - intros H; now inversion H.
Qed.

Lemma saveRecord_returned (r : DialogueRecord) (d d' : Database) (u : unit) :
  saveRecord r d = (Returned u, d') ->
  storedRows d' = storedRows d ++ [rowOf r].
Proof.
  destruct d as [rows| | |]; simpl.
  - destruct (existsb _ rows); intros H; inversion H. reflexivity.
  - intros H; inversion H.
  - intros H; inversion H.
  - intros H; inversion H.
Qed.

(** The record [recordDialogue] builds in world [w]. *)
Lemma recordDialogue_run
  (recordIdAt : nat -> jsstring) (dateAt : nat -> Z)
  (sp : Speaker) (c : jsstring) (w : World) :
  let r := {| id := recordIdAt (tick w); sessionId := currentSessionId w;
              timestamp := dateAt (S (tick w)); speaker := sp; content := c;
              recordType := DIALOGUE; filePath := None |} in
  exists w',
    recordDialogue recordIdAt dateAt sp c w = (Returned tt, w')
    /\ saveCalls w' = saveCalls w ++ [r]
    /\ match saveRecord r (db w) with
       | (Returned _, d) =>
         db w' = d
         /\ console w'
            = console w
              ++ [ConsoleLog (lit "记录对话: " ++ speakerName sp ++ lit " - "
                              ++ substring c 0 50 ++ lit "...")]
       | (Thrown e, _) =>
         db w' = db w
         /\ console w' = console w ++ [ConsoleError (lit "记录对话失败:") e]
       end.
Proof.
  intros r. unfold recordDialogue, bind, tryCatch, generateRecordId,
    getSessionId, newDate, awaitSaveRecord, consoleLog, consoleError.
  cbn [db currentSessionId console saveCalls tick].
  fold r. destruct (saveRecord r (db w)) as [[[]|e] d] eqn:E; cbn.
  - eexists. repeat split.
  - eexists. repeat split. cbn. exact (saveRecord_thrown _ _ _ _ E).
Qed.

Lemma appends_refl (P : jsstring -> Prop) (w : World) : Appends P w w.
Proof. exists []. split; [now rewrite app_nil_r|constructor]. Qed.

Lemma appends_trans (P : jsstring -> Prop) (w1 w2 w3 : World) :
  Appends P w1 w2 -> Appends P w2 w3 -> Appends P w1 w3.
Proof.
  intros (a & Ha & Fa) (b & Hb & Fb). exists (a ++ b). split.
  - now rewrite Hb, Ha, app_assoc.
  - apply Forall_app. now split.
Qed.

Lemma safe_ret (P : jsstring -> Prop) : Safe P (ret tt).
Proof. intros w. split; [reflexivity|apply appends_refl]. Qed.

Lemma safe_seq (P : jsstring -> Prop) (m k : M unit) :
  Safe P m -> Safe P k -> Safe P (m ;;; k).
Proof.
  intros Hm Hk w. unfold bind. destruct (Hm w) as [Hr Ha].
  destruct (m w) as [[u|e] w1]; simpl in Hr, Ha; [|discriminate].
  destruct (Hk w1) as [Hr' Ha']. split; [exact Hr'|].
  eapply appends_trans; eassumption.
Qed.

Lemma safe_forEach {A : Type} (P : jsstring -> Prop) (f : A -> M unit)
  (l : list A) :
  (forall x, Safe P (f x)) -> Safe P (forEach f l).
Proof.
  intros Hf. induction l as [|x l IH]; simpl.
  - apply safe_ret.
  - apply safe_seq; [apply Hf|exact IH].
Qed.

Lemma safe_recordDialogue
  (P : jsstring -> Prop) (recordIdAt : nat -> jsstring) (dateAt : nat -> Z)
  (sp : Speaker) (c : jsstring) :
  P c -> Safe P (recordDialogue recordIdAt dateAt sp c).
Proof.
  intros Hc w.
  destruct (recordDialogue_run recordIdAt dateAt sp c w) as (w' & Hrun & _ & Hdb).
  rewrite Hrun. simpl. split; [reflexivity|].
  match type of Hdb with
  | match saveRecord ?r _ with _ => _ end =>
    destruct (saveRecord r (db w)) as [[u|e] d] eqn:E;
      destruct Hdb as [Hd _]; [exists [rowOf r]|exists []]
  end.
  - split.
    + rewrite Hd. exact (saveRecord_returned _ _ _ _ E).
    + constructor; [exact Hc|constructor].
  - split.
    + now rewrite Hd, app_nil_r.
    + constructor.
Qed.

Lemma isRealChatContent_withinGate (c : jsstring) :
  isRealChatContent c = true -> withinGate c.
Proof.
  unfold isRealChatContent, withinGate.
  destruct (Nat.ltb (List.length c) 10) eqn:Lo; [discriminate|].
  destruct (Nat.ltb 5000 (List.length c)) eqn:Hi; [discriminate|].
  intros _. apply Nat.ltb_ge in Lo, Hi. lia.
Qed.

Lemma safe_recordIfReal
  (recordIdAt : nat -> jsstring) (dateAt : nat -> Z)
  (sp : Speaker) (c : option jsstring) :
  Safe withinGate (recordIfReal recordIdAt dateAt sp c).
Proof.
  unfold recordIfReal. destruct c as [c|]; [|apply safe_ret].
  destruct (truthy c); simpl; [|apply safe_ret].
  destruct (isRealChatContent c) eqn:G; [|apply safe_ret].
  apply safe_recordDialogue. now apply isRealChatContent_withinGate.
Qed.

Lemma safe_analyzeOutputLine
  (toLowerCase : jsstring -> jsstring) (recordIdAt : nat -> jsstring)
  (dateAt : nat -> Z) (line : jsstring) :
  Safe withinGate (analyzeOutputLine toLowerCase recordIdAt dateAt line).
Proof.
  unfold analyzeOutputLine.
  destruct (isTerminalOrSystemMessage toLowerCase line); [apply safe_ret|].
  destruct (_ || _); [apply safe_recordIfReal|].
  destruct (_ || _); [apply safe_recordIfReal|].
  destruct (_ || _); [apply safe_recordIfReal|].
  destruct (isPureDialogueContent line); [|apply safe_ret].
  destruct (determineSpeakerFromContext line) as [sp|]; [|apply safe_ret].
  destruct (isRealChatContent line) eqn:G; [|apply safe_ret].
  apply safe_recordDialogue. now apply isRealChatContent_withinGate.
Qed.

Lemma safe_processOutputContent
  (toLowerCase : jsstring -> jsstring) (recordIdAt : nat -> jsstring)
  (dateAt : nat -> Z) (text : jsstring) :
  Safe withinGate (processOutputContent toLowerCase recordIdAt dateAt text).
Proof.
  unfold processOutputContent. apply safe_forEach. intros line.
  destruct (truthy (trim line)); [apply safe_analyzeOutputLine|apply safe_ret].
Qed.

Lemma safe_weaken (P Q : jsstring -> Prop) (m : M unit) :
  (forall c, P c -> Q c) -> Safe P m -> Safe Q m.
Proof.
  intros HPQ Hm w. destruct (Hm w) as [Hr (a & Ha & Fa)].
  split; [exact Hr|]. exists a. split; [exact Ha|].
  eapply Forall_impl; [|exact Fa]. intros row. apply HPQ.
Qed.

Lemma safe_handleEvent
  (toLowerCase : jsstring -> jsstring) (recordIdAt : nat -> jsstring)
  (dateAt : nat -> Z) (ev : HostEvent) :
  Safe (fun _ => True) (handleEvent toLowerCase recordIdAt dateAt ev).
Proof.
  assert (forall verb b,
             Safe (fun _ => True) (breakpointRecord recordIdAt dateAt verb b))
    as Hb.
  { intros verb [fsPath line|functionName|]; simpl;
      try apply safe_recordDialogue; auto using safe_ret. }
  destruct ev; simpl;
    try (apply safe_recordDialogue; exact I).
  - eapply safe_weaken; [|apply safe_processOutputContent]. auto.
  - destruct isInteractedWith;
      [apply safe_recordDialogue; exact I|apply safe_ret].
  - destruct (truthy output);
      [apply safe_recordDialogue; exact I|apply safe_ret].
  - apply safe_seq; apply safe_forEach; intros b; apply Hb.
Qed.

(** C9.  Recording never raises.  [recordDialogue] returns normally in
    every world; it hands its record to [saveRecord] exactly once; and
    when that call fails the store is left as it was and the failure is
    written to the console.  Classifying any line, and handling any host
    event, returns normally as well. *)
Theorem recording_never_raises
  (toLowerCase : jsstring -> jsstring) (recordIdAt : nat -> jsstring)
  (dateAt : nat -> Z) :
  (forall (sp : Speaker) (c : jsstring) (w : World),
      let r := {| id := recordIdAt (tick w); sessionId := currentSessionId w;
                  timestamp := dateAt (S (tick w)); speaker := sp;
                  content := c; recordType := DIALOGUE; filePath := None |} in
      exists w',
        recordDialogue recordIdAt dateAt sp c w = (Returned tt, w')
        /\ saveCalls w' = saveCalls w ++ [r]
        /\ match saveRecord r (db w) with
           | (Returned _, d) =>
             db w' = d
             /\ console w'
                = console w
                  ++ [ConsoleLog (lit "记录对话: " ++ speakerName sp
                                  ++ lit " - " ++ substring c 0 50
                                  ++ lit "...")]
           | (Thrown e, _) =>
             db w' = db w
             /\ console w'
                = console w ++ [ConsoleError (lit "记录对话失败:") e]
           end)
  /\ (forall (line : jsstring) (w : World),
         fst (analyzeOutputLine toLowerCase recordIdAt dateAt line w)
         = Returned tt)
  /\ (forall (ev : HostEvent) (w : World),
         fst (handleEvent toLowerCase recordIdAt dateAt ev w) = Returned tt).
Proof.
  split; [|split].
  - intros sp c w. apply recordDialogue_run.
  - intros line w.
    apply (safe_analyzeOutputLine toLowerCase recordIdAt dateAt line w).
  - intros ev w. apply (safe_handleEvent toLowerCase recordIdAt dateAt ev w).
Qed.

(** A save that fails on a closed store: one attempt, one console error,
    a normal return. *)
Example recording_on_closed_store :
  recordDialogue Sample.recordIdAt Sample.dateAt USER (lit "hello there, world")
    {| db := Closed; currentSessionId := lit "session_1"; console := [];
       saveCalls := []; tick := 0 |}
  = (Returned tt,
     {| db := Closed; currentSessionId := lit "session_1";
        console := [ConsoleError (lit "记录对话失败:") DatabaseNotInitialized];
        saveCalls :=
          [ {| id := Sample.recordIdAt 0; sessionId := lit "session_1";
               timestamp := Sample.dateAt 1; speaker := USER;
               content := lit "hello there, world"; recordType := DIALOGUE;
               filePath := None |} ];
        tick := 2 |}).
Proof. vm_compute. reflexivity. Qed.


(** The classifier does append: a marked line of sufficient length. *)
Example classified_record_appended :
  storedRows
    (db (snd (processOutputContent asciiLower Sample.recordIdAt Sample.dateAt
                (lit "[User] 这是一个很长的用户消息内容哦哦哦")
                Sample.emptyWorld)))
  = [ {| row_id := Sample.recordIdAt 0; row_session_id := lit "session_1";
         row_timestamp := Sample.dateAt 1; row_speaker := USER;
         row_content := lit "这是一个很长的用户消息内容哦哦哦";
         row_record_type := DIALOGUE |} ].
Proof. vm_compute. reflexivity. Qed.


(** ** The relevance ranker *)

Lemma in_insertSorted {A : Type} (before : A -> A -> bool) (x y : A)
  (l : list A) :
  In y (insertSorted before x l) <-> y = x \/ In y l.
Proof.
  induction l as [|z l IH]; simpl.
  - intuition congruence.
  - destruct (before z x); simpl; rewrite ?IH; intuition congruence.
Qed.

Lemma in_sortBy {A : Type} (before : A -> A -> bool) (y : A) (l : list A) :
  In y (sortBy before l) <-> In y l.
Proof.
  induction l as [|x l IH]; simpl; [tauto|].
  unfold sortBy in *. simpl. rewrite in_insertSorted, IH.
  intuition congruence.
Qed.

Lemma mapOutcome_returned {A B : Type} (f : A -> Outcome B) (l : list A)
  (ys : list B) (y : B) :
  mapOutcome f l = Returned ys -> In y ys ->
  exists x, In x l /\ f x = Returned y.
Proof.
  revert ys. induction l as [|x l IH]; simpl; intros ys H Hy.
  - inversion H; subst. destruct Hy.
  - destruct (f x) as [b|e] eqn:Fx; [|discriminate].
    destruct (mapOutcome f l) as [bs|e] eqn:Fl; [|discriminate].
    inversion H; subst. destruct Hy as [<-|Hy].
    + exists x. auto.
    + destruct (IH bs eq_refl Hy) as (x' & Hx' & Hf). exists x'. auto.
Qed.

(** Every result of [search] is built from a record that the store
    returned and that passed the in-memory filter. *)
Lemma search_result_origin
  (toLowerCase : jsstring -> jsstring)
  (hostMatchCount : jsstring -> jsstring -> Outcome nat)
  (criteria : SearchCriteria) (d : Database) (results : list SearchResult)
  (x : SearchResult) :
  search toLowerCase hostMatchCount criteria d = Returned results ->
  In x results ->
  exists recs,
    searchRecords (orEmpty (keyword criteria)) (startTime criteria)
                  (endTime criteria) d = Returned recs
    /\ In (record x) recs
    /\ matchesCriteria criteria (record x) = true
    /\ calculateRelevance toLowerCase hostMatchCount (record x)
         (orEmpty (keyword criteria)) = Returned (relevance x)
    /\ highlights x
       = extractHighlights toLowerCase (content (record x))
           (orEmpty (keyword criteria)).
Proof.
  unfold search. intros H Hx.
  destruct (searchRecords _ _ _ d) as [recs|e]; [|discriminate].
  destruct (mapOutcome _ _) as [rs|e] eqn:Hm; [|discriminate].
  inversion H; subst. apply in_sortBy in Hx.
  destruct (mapOutcome_returned _ _ _ _ Hm Hx) as (r & Hr & Hf).
  apply filter_In in Hr. destruct Hr as [Hr Hc].
  unfold toSearchResult in Hf.
  destruct (calculateRelevance _ _ r _) as [q|e] eqn:Hq; [|discriminate].
  inversion Hf; subst. simpl. exists recs. auto.
Qed.

(** C10.  With an empty or absent keyword every result of a search carries
    an empty list of highlights. *)
Theorem no_keyword_no_highlights
  (toLowerCase : jsstring -> jsstring)
  (hostMatchCount : jsstring -> jsstring -> Outcome nat)
  (criteria : SearchCriteria) (d : Database) (results : list SearchResult)
  (x : SearchResult) :
  keyword criteria = None \/ keyword criteria = Some [] ->
  search toLowerCase hostMatchCount criteria d = Returned results ->
  In x results ->
  highlights x = [].
Proof.
  intros Hk Hs Hx.
  destruct (search_result_origin _ _ _ _ _ _ Hs Hx) as (_ & _ & _ & _ & _ & ->).
  destruct Hk as [-> | ->]; reflexivity.
Qed.

Lemma no_keyword_no_highlights_witness :
  search asciiLower Sample.hostMatchCount (Sample.criteria None None)
    (Ready [rowOf (Sample.dialogue "r1" "you can search the project")])
  = Returned
      [ {| record := Sample.dialogue "r1" "you can search the project";
           relevance := 5 # 10; highlights := [] |} ]
  /\ highlights
       {| record := Sample.dialogue "r1" "you can search the project";
          relevance := 5 # 10; highlights := [] |} = [].
Proof.
  split; [vm_compute; reflexivity|].
  apply (no_keyword_no_highlights asciiLower Sample.hostMatchCount
           (Sample.criteria None None)
           (Ready [rowOf (Sample.dialogue "r1" "you can search the project")])
           [ {| record := Sample.dialogue "r1" "you can search the project";
                relevance := 5 # 10; highlights := [] |} ]).
  - left. reflexivity.
  - vm_compute. reflexivity.
  - left. reflexivity.
Defined.

Lemma endsWith_empty (path : jsstring) : endsWith path [] = true.
Proof.
  unfold endsWith. simpl. rewrite Nat.sub_0_r, skipn_all. reflexivity.
Qed.

(** C6, as the code has it.  When [fileExtension] is set, every record
    that passes the in-memory filter and carries a non-empty [filePath]
    has a path that ends with the extension; a record without a path is
    not tested against the extension. *)
Theorem extension_filter_on_paths
  (criteria : SearchCriteria) (ext : jsstring) (recs : list DialogueRecord)
  (r : DialogueRecord) (path : jsstring) :
  fileExtension criteria = Some ext ->
  In r (filter (matchesCriteria criteria) recs) ->
  filePath r = Some path -> path <> [] ->
  endsWith path ext = true.
Proof.
  intros He Hr Hp Hne. apply filter_In in Hr. destruct Hr as [_ Hm].
  unfold matchesCriteria in Hm. rewrite He, Hp in Hm.
  destruct (match criteriaSpeaker criteria with
            | Some s => negb (Speaker_eqb (speaker r) s) | None => false end);
    [discriminate|].
  destruct (match criteriaRecordType criteria with
            | Some t => negb (RecordType_eqb (recordType r) t)
            | None => false end);
    [discriminate|].
  destruct ext as [|c ext]; [apply endsWith_empty|].
  destruct path as [|p path]; [congruence|].
  simpl truthy in Hm. simpl andb in Hm.
  destruct (endsWith (p :: path) (c :: ext)); [reflexivity|discriminate].
Qed.

Lemma extension_filter_on_paths_witness :
  endsWith (lit "src/extension.ts") (lit ".ts") = true.
Proof.
  apply (extension_filter_on_paths
           (Sample.criteria None (Some (lit ".ts"))) (lit ".ts")
           [ {| id := lit "r1"; sessionId := lit "session_1";
                timestamp := 1700000000000; speaker := BUILDER;
                content := lit "file modified"; recordType := FILE_MODIFICATION;
                filePath := Some (lit "src/extension.ts") |};
             {| id := lit "r2"; sessionId := lit "session_1";
                timestamp := 1700000000001; speaker := BUILDER;
                content := lit "file modified"; recordType := FILE_MODIFICATION;
                filePath := Some (lit "README.md") |} ]
           {| id := lit "r1"; sessionId := lit "session_1";
              timestamp := 1700000000000; speaker := BUILDER;
              content := lit "file modified"; recordType := FILE_MODIFICATION;
              filePath := Some (lit "src/extension.ts") |}
           (lit "src/extension.ts")).
  - reflexivity.
  - vm_compute. left. reflexivity.
  - reflexivity.
  - vm_compute. discriminate.
Defined.

(** C6 as stated fails: a search for extension ".ts" returns a dialogue
    record, which has no file path at all. *)
Lemma extension_filter_counterexample :
  exists results x,
    search asciiLower Sample.hostMatchCount
      (Sample.criteria None (Some (lit ".ts")))
      (Ready [rowOf (Sample.dialogue "r1" "you can search the project")])
    = Returned results
    /\ In x results
    /\ hasExtension (lit ".ts") (record x) = false.
Proof.
  eexists. eexists. split; [vm_compute; reflexivity|].
  split; [left; reflexivity|reflexivity].
Qed.

Lemma extension_filter_skips_pathless
  (criteria : SearchCriteria) (r : DialogueRecord) :
  filePath r = None ->
  matchesCriteria criteria r
  = matchesCriteria
      {| keyword := keyword criteria; startTime := startTime criteria;
         endTime := endTime criteria;
         criteriaSpeaker := criteriaSpeaker criteria;
         criteriaRecordType := criteriaRecordType criteria;
         fileExtension := None |} r.
Proof.
  intros Hp. unfold matchesCriteria. simpl. rewrite Hp.
  destruct (fileExtension criteria); reflexivity.
Qed.

(** *** Highlights *)

Lemma indexOfFrom_zero (s p : jsstring) : indexOfFrom s p 0 = indexOf s p.
Proof.
  unfold indexOfFrom. simpl. now destruct (indexOf s p).
Qed.

Lemma indexOfFrom_least (s p : jsstring) (j i : nat) :
  (j <= i)%nat -> (i <= List.length s)%nat ->
  startsWith (skipn i s) p = true ->
  exists k, indexOfFrom s p j = Some k /\ (j <= k <= i)%nat.
Proof.
  intros Hji Hi Hm. unfold indexOfFrom.
  assert (Nat.ltb (List.length s) j = false) as -> by (apply Nat.ltb_ge; lia).
  assert (skipn (i - j) (skipn j s) = skipn i s) as Hsk.
  { rewrite skipn_skipn. f_equal. lia. }
  destruct (indexOf (skipn j s) p) as [k|] eqn:E.
  - exists (j + k)%nat. split; [reflexivity|].
    destruct (indexOf_some _ _ _ E) as (_ & _ & Hleast).
    destruct (Nat.lt_ge_cases (i - j) k) as [Hlt|Hge]; [|lia].
    specialize (Hleast _ Hlt). rewrite Hsk in Hleast. congruence.
  - pose proof (indexOf_none _ _ E (i - j)%nat) as Hn.
    rewrite Hsk in Hn. congruence.
Qed.

Lemma highlightLoop_keeps
  (fuel : nat) (content kw s p : jsstring) (index : option nat)
  (acc : list jsstring) (h : jsstring) :
  In h acc -> In h (highlightLoop fuel content kw s p index acc).
Proof.
  revert index acc. induction fuel as [|fuel IH]; intros index acc Hin.
  - exact Hin.
  - simpl. destruct index as [i|]; [|exact Hin].
    apply IH. apply in_or_app. now left.
Qed.

Lemma highlightLoop_complete
  (content kw s p : jsstring) (i : nat) :
  (i <= List.length s)%nat -> startsWith (skipn i s) p = true ->
  forall (fuel j : nat) (acc : list jsstring),
    (List.length s + 2 - j <= fuel)%nat -> (j <= i)%nat ->
    In (highlightAt content kw i)
       (highlightLoop fuel content kw s p (indexOfFrom s p j) acc).
Proof.
  intros Hi Hm. induction fuel as [|fuel IH]; intros j acc Hf Hj.
  - lia.
  - destruct (indexOfFrom_least s p j i Hj Hi Hm) as (k & -> & Hk).
    simpl. destruct (Nat.eq_dec k i) as [->|Hne].
    + apply highlightLoop_keeps. apply in_or_app. right. now left.
    + apply IH; lia.
Qed.

Lemma highlightAt_window (content kw : jsstring) (i : nat) :
  highlightAt content kw i = spec_window content (List.length kw) i.
Proof.
  unfold highlightAt, spec_window, substring.
  replace (Z.to_nat (Z.max 0 (Z.of_nat i - 20))) with (i - 20)%nat by lia.
  replace (Z.to_nat (Z.min (Z.of_nat (List.length content))
                           (Z.of_nat i + Z.of_nat (List.length kw) + 20)))
    with (Nat.min (List.length content) (i + List.length kw + 20)) by lia.
  set (a := (i - 20)%nat).
  set (b := Nat.min (List.length content) (i + List.length kw + 20)).
  destruct (Nat.le_gt_cases a b) as [Hab|Hba].
  - now rewrite Nat.min_l, Nat.max_r by exact Hab.
  - rewrite Nat.min_r, Nat.max_l by lia.
    assert (b = List.length content) as Hb by (unfold a, b in *; lia).
    rewrite Hb, skipn_all, firstn_nil.
    replace (List.length content - a)%nat with 0%nat by lia.
    reflexivity.
Qed.

Lemma extractHighlights_complete
  (toLowerCase : jsstring -> jsstring) (content kw : jsstring) (i : nat) :
  kw <> [] ->
  OccursAt (toLowerCase kw) (toLowerCase content) i ->
  In (spec_window content (List.length kw) i)
     (extractHighlights toLowerCase content kw).
Proof.
  intros Hkw Hocc. apply occursAt_startsWith in Hocc.
  destruct Hocc as [Hi Hm]. unfold extractHighlights.
  destruct kw as [|c kw]; [congruence|]. simpl negb. cbv iota.
  rewrite <- highlightAt_window, <- indexOfFrom_zero.
  apply highlightLoop_complete; auto; lia.
Qed.

(** The indices the loop visits are those of the lower-cased texts.  For
    a search with a non-empty keyword and each of its results, every
    index at which the lower-cased keyword occurs in the lower-cased text
    has in the result's highlights the excerpt cut at that index out of
    the text as stored: from 20 characters before the index to 20
    characters after the keyword's length, clipped to the text. *)
Lemma highlights_cover_lowercased_occurrences
  (toLowerCase : jsstring -> jsstring)
  (hostMatchCount : jsstring -> jsstring -> Outcome nat)
  (criteria : SearchCriteria) (d : Database) (results : list SearchResult)
  (x : SearchResult) (kw : jsstring) (i : nat) :
  keyword criteria = Some kw -> kw <> [] ->
  search toLowerCase hostMatchCount criteria d = Returned results ->
  In x results ->
  OccursAt (toLowerCase kw) (toLowerCase (content (record x))) i ->
  In (spec_window (content (record x)) (List.length kw) i) (highlights x).
Proof.
  intros Hk Hne Hs Hx Hocc.
  destruct (search_result_origin _ _ _ _ _ _ Hs Hx)
    as (_ & _ & _ & _ & _ & ->).
  rewrite Hk. simpl orEmpty. now apply extractHighlights_complete.
Qed.


Lemma highlights_cover_lowercased_occurrences_witness :
  search asciiLower Sample.hostMatchCount
    (Sample.criteria (Some (lit "Project")) None) Sample.projectStore
  = Returned [Sample.projectResult]
  /\ spec_window (content (record Sample.projectResult))
       (List.length (lit "Project")) 55
     = lit "ple, but the second Project grew large over the"
  /\ In (spec_window (content (record Sample.projectResult))
           (List.length (lit "Project")) 55)
        (highlights Sample.projectResult).
Proof.
  split; [vm_compute; reflexivity|].
  split; [vm_compute; reflexivity|].
  apply (highlights_cover_lowercased_occurrences asciiLower
           Sample.hostMatchCount
           (Sample.criteria (Some (lit "Project")) None) Sample.projectStore
           [Sample.projectResult] Sample.projectResult (lit "Project") 55).
  - reflexivity.
  - vm_compute. discriminate.
  - vm_compute. reflexivity.
  - left. reflexivity.
  - apply occursAt_startsWith. split.
    + apply Nat.leb_le. vm_compute. reflexivity.
    + vm_compute. reflexivity.
Defined.

(** C7, at the failing input.  The text is thirty capital I with dot
    above followed by "abc", 33 characters, and the keyword is "abc",
    which occurs in the text at index 30: its excerpt is the last 23
    characters of the text.  The lower case of the text has 63
    characters, the keyword is found in it at index 60, and the code cuts
    the stored text at that index: the one highlight of the result is the
    empty string, and the excerpt of the occurrence is not among the
    highlights. *)
Theorem highlights_cut_at_lowercased_index :
  (forall hostMatchCount,
      search dottedLower hostMatchCount
        (Sample.criteria (Some (lit "abc")) None)
        (Ready [rowOf Sample.dottedRecord])
      = Returned [ {| record := Sample.dottedRecord;
                      relevance := 33000 # 63000;
                      highlights := [[]] |} ])
  /\ List.length Sample.dottedText = 33%nat
  /\ OccursAt (lit "abc") Sample.dottedText 30
  /\ spec_window Sample.dottedText (List.length (lit "abc")) 30
     = repeat 304%N 20 ++ lit "abc"
  /\ List.length (dottedLower Sample.dottedText) = 63%nat
  /\ indexOf (dottedLower Sample.dottedText) (dottedLower (lit "abc"))
     = Some 60%nat
  /\ extractHighlights dottedLower Sample.dottedText (lit "abc") = [[]]
  /\ ~ In (spec_window Sample.dottedText (List.length (lit "abc")) 30)
          (extractHighlights dottedLower Sample.dottedText (lit "abc")).
Proof.
  split; [intros h; vm_compute; reflexivity|].
  split; [vm_compute; reflexivity|].
  split; [exists (repeat 304%N 30), []; split; vm_compute; reflexivity|].
  split; [vm_compute; reflexivity|].
  split; [vm_compute; reflexivity|].
  split; [vm_compute; reflexivity|].
  split; [vm_compute; reflexivity|].
  vm_compute. intros [H|[]]. discriminate H.
Qed.

(** *** Relevance *)

Lemma compile_plain (p : jsstring) :
  forallb (fun c => negb (isSyntaxCharacter c)) p = true ->
  compile p = Some (List.map Char p).
Proof.
  induction p as [|c p IH]; simpl; [reflexivity|]. intros H.
  apply andb_prop in H. destruct H as [Hc Hp]. rewrite (IH Hp).
  apply negb_true_iff in Hc. rewrite Hc.
  destruct (c =? 46)%N eqn:E; [|reflexivity].
  apply N.eqb_eq in E. subst c. vm_compute in Hc. discriminate Hc.
Qed.

Lemma matchAt_plain (p s : jsstring) :
  matchAt (List.map Char p) s = startsWith s p.
Proof.
  revert s. induction p as [|c p IH]; intros s; simpl; [reflexivity|].
  destruct s as [|d s]; [reflexivity|]. now rewrite IH.
Qed.

Lemma countMatches_plain (p : jsstring) :
  p <> [] ->
  forall (s : jsstring) (skip fuel : nat),
    (List.length s <= fuel)%nat ->
    countMatches (List.map Char p) skip s
    = spec_countFrom fuel p (skipn skip s).
Proof.
  intros Hp. destruct p as [|c0 p0]; [congruence|].
  set (p := c0 :: p0). induction s as [|c s IH]; intros skip fuel Hf.
  - rewrite skipn_nil. destruct skip, fuel; reflexivity.
  - destruct skip as [|k].
    + destruct fuel as [|f]; [simpl in Hf; lia|].
      simpl in Hf. cbn [skipn countMatches spec_countFrom].
      rewrite matchAt_plain, length_map.
      destruct (startsWith (c :: s) p).
      * f_equal. rewrite (IH _ f) by lia.
        replace (List.length p - 1)%nat with (List.length p0)
          by (unfold p; simpl; lia).
        reflexivity.
      * rewrite (IH 0%nat f) by lia. reflexivity.
    + cbn [skipn countMatches]. apply IH. simpl in Hf. lia.
Qed.

(** For an empty keyword the score is 0.5; for a keyword whose
    lower-cased form is free of pattern syntax the score follows the
    formula of the specification. *)
Lemma relevance_without_keyword
  (toLowerCase : jsstring -> jsstring)
  (hostMatchCount : jsstring -> jsstring -> Outcome nat)
  (r : DialogueRecord) :
  calculateRelevance toLowerCase hostMatchCount r [] = Returned (5 # 10).
Proof. reflexivity. Qed.

Lemma relevance_of_plain_keyword
  (toLowerCase : jsstring -> jsstring)
  (hostMatchCount : jsstring -> jsstring -> Outcome nat)
  (r : DialogueRecord) (kw : jsstring) (i : nat) :
  kw <> [] -> toLowerCase kw <> [] ->
  forallb (fun c => negb (isSyntaxCharacter c)) (toLowerCase kw) = true ->
  indexOf (toLowerCase (content r)) (toLowerCase kw) = Some i ->
  calculateRelevance toLowerCase hostMatchCount r kw
  = Returned
      (spec_score
         (spec_occurrenceCount (toLowerCase kw) (toLowerCase (content r)))
         i (List.length (toLowerCase (content r)))).
Proof.
  intros Hkw Hlow Hplain Hidx. unfold calculateRelevance.
  destruct kw as [|c kw]; [congruence|]. simpl negb. cbv iota.
  unfold includes, indexOfZ, matchCount. rewrite Hidx.
  rewrite (compile_plain _ Hplain).
  rewrite (countMatches_plain _ Hlow _ 0%nat
             (List.length (toLowerCase (content r)))) by lia.
  reflexivity.
Qed.

(** C1, at the failing input.  For the keyword "." and the text "a.b" the
    keyword occurs once, at index 1, so that the formula gives 5/6; the
    code counts the matches of the keyword read as a pattern, which are
    3, and scores the record 1. *)
Theorem relevance_counts_pattern_matches :
  (forall hostMatchCount,
      calculateRelevance asciiLower hostMatchCount
        (Sample.dialogue "r1" "a.b") (lit ".") = Returned 1)
  /\ (forall hostMatchCount,
         search asciiLower hostMatchCount
           (Sample.criteria (Some (lit ".")) None)
           (Ready [rowOf (Sample.dialogue "r1" "a.b")])
         = Returned [ {| record := Sample.dialogue "r1" "a.b";
                         relevance := 1;
                         highlights := [lit "a.b"] |} ])
  /\ spec_occurrenceCount (lit ".") (lit "a.b") = 1%nat
  /\ indexOf (lit "a.b") (lit ".") = Some 1%nat
  /\ spec_score 1 1 3 == 5 # 6
  /\ ~ 1 == spec_score 1 1 3.
Proof.
  split; [intros h; vm_compute; reflexivity|].
  split; [intros h; vm_compute; reflexivity|].
  split; [vm_compute; reflexivity|].
  split; [vm_compute; reflexivity|].
  split; [vm_compute; reflexivity|].
  vm_compute. discriminate.
Qed.

(** ** The session aggregator *)



(** A session that has records does yield its detail. *)
Example known_session_detail :
  returned
    (getSessionDetail (lit "session_1")
       (Ready [rowOf (Sample.dialogue "r1" "you can search the project")]))
  = true.
Proof. vm_compute. reflexivity. Qed.

(** * Further properties of the code *)

(** ** Sorting *)

Lemma insertSorted_perm {A : Type} (before : A -> A -> bool) (x : A)
  (l : list A) :
  Permutation (insertSorted before x l) (x :: l).
Proof.
  induction l as [|y l IH]; simpl; [reflexivity|].
  destruct (before y x); [|reflexivity].
  rewrite IH. apply perm_swap.
Qed.

Lemma sortBy_perm {A : Type} (before : A -> A -> bool) (l : list A) :
  Permutation (sortBy before l) l.
Proof.
  induction l as [|x l IH]; [reflexivity|].
  change (sortBy before (x :: l)) with (insertSorted before x (sortBy before l)).
  rewrite insertSorted_perm. now constructor.
Qed.

Lemma sortBy_length {A : Type} (before : A -> A -> bool) (l : list A) :
  List.length (sortBy before l) = List.length l.
Proof. apply Permutation_length, sortBy_perm. Qed.

Section SortedOutput.

Variable A : Type.
Variable before : A -> A -> bool.
Hypothesis before_asym :
  forall a b, before a b = true -> before b a = false.
Hypothesis before_negtrans :
  forall a b c, before a c = true -> before a b = true \/ before b c = true.

Lemma insertSorted_sorted (x : A) (l : list A) :
  StronglySorted (inOrder before) l ->
  StronglySorted (inOrder before) (insertSorted before x l).
Proof.
  induction l as [|y l IH]; intros Hs; simpl.
  - constructor; constructor.
  - inversion Hs as [|? ? Hl Hy]; subst.
    destruct (before y x) eqn:E.
    + constructor; [now apply IH|].
      apply Forall_forall. intros z Hz. apply in_insertSorted in Hz.
      destruct Hz as [->|Hz].
      * now apply before_asym.
      * rewrite Forall_forall in Hy. now apply Hy.
    + constructor; [exact Hs|].
      constructor; [exact E|].
      apply Forall_forall. intros z Hz. rewrite Forall_forall in Hy.
      specialize (Hy z Hz). unfold inOrder in *.
      destruct (before z x) eqn:Ez; [|reflexivity].
      destruct (before_negtrans z y x Ez); congruence.
Qed.

Lemma sortBy_sorted (l : list A) : StronglySorted (inOrder before) (sortBy before l).
Proof.
  induction l as [|x l IH]; [constructor|].
  change (sortBy before (x :: l)) with (insertSorted before x (sortBy before l)).
  now apply insertSorted_sorted.
Qed.

End SortedOutput.

(** A list in which nothing has to come before anything else is left as
    it is: the sort is stable. *)
Lemma sortBy_unordered {A : Type} (before : A -> A -> bool) (l : list A) :
  (forall a b, In a l -> In b l -> before a b = false) ->
  sortBy before l = l.
Proof.
  induction l as [|x l IH]; intros H; [reflexivity|].
  change (sortBy before (x :: l)) with (insertSorted before x (sortBy before l)).
  rewrite IH by (intros a b Ha Hb; apply H; now right).
  destruct l as [|y l]; [reflexivity|]. simpl.
  now rewrite (H y x) by (simpl; auto).
Qed.

Lemma StronglySorted_weaken {A : Type} (R R' : A -> A -> Prop) (l : list A) :
  (forall a b, R a b -> R' a b) ->
  StronglySorted R l -> StronglySorted R' l.
Proof.
  intros HR. induction 1 as [|x l Hs IH Hx]; constructor; [exact IH|].
  eapply Forall_impl; [|exact Hx]. intros b. apply HR.
Qed.

Lemma sortBy_key_descending {A : Type} (key : A -> Z) (l : list A) :
  StronglySorted (fun a b => (key b <= key a)%Z)
                 (sortBy (fun a b => (key b <? key a)%Z) l).
Proof.
  apply StronglySorted_weaken
    with (R := inOrder (fun a b => (key b <? key a)%Z)).
  - intros a b H. unfold inOrder in H. apply Z.ltb_ge in H. exact H.
  - apply sortBy_sorted.
    + intros a b H. apply Z.ltb_lt in H. apply Z.ltb_ge. lia.
    + intros a b c H. apply Z.ltb_lt in H.
      destruct (Z.ltb_spec (key b) (key a)); [now left|right].
      apply Z.ltb_lt. lia.
Qed.

(** ** Text order *)

Lemma bytesLtb_irrefl (a : list N) : bytesLtb a a = false.
Proof.
  induction a as [|x a IH]; simpl; [reflexivity|].
  now rewrite N.ltb_irrefl.
Qed.

Lemma bytesLtb_asym (a b : list N) :
  bytesLtb a b = true -> bytesLtb b a = false.
Proof.
  revert b. induction a as [|x a IH]; intros [|y b]; simpl; try congruence.
  destruct (N.ltb_spec x y) as [Hxy|Hxy].
  - intros _. destruct (N.ltb_spec y x); [lia|].
    destruct (N.ltb_spec x y); [reflexivity|lia].
  - destruct (N.ltb_spec y x) as [Hyx|Hyx]; [discriminate|]. apply IH.
Qed.

Lemma bytesLtb_negtrans (a b c : list N) :
  bytesLtb a c = true -> bytesLtb a b = true \/ bytesLtb b c = true.
Proof.
  revert b c. induction a as [|x a IH]; intros [|y b] [|z c]; simpl;
    try congruence; try tauto.
  - destruct (N.ltb_spec x z) as [Hxz|Hxz].
    + intros _. destruct (N.ltb_spec x y); [now left|].
      destruct (N.ltb_spec y x); [right|right].
      * destruct (N.ltb_spec y z); [reflexivity|lia].
      * destruct (N.ltb_spec y z); [reflexivity|lia].
    + destruct (N.ltb_spec z x) as [Hzx|Hzx]; [discriminate|].
      assert (x = z) by lia. subst z. intros Hac.
      destruct (N.ltb_spec x y); [now left|].
      destruct (N.ltb_spec y x); [right; reflexivity|].
      now apply IH.
Qed.

Lemma isoLtb_irrefl (a : Z) : isoLtb a a = false.
Proof. apply bytesLtb_irrefl. Qed.

Lemma isoLtb_asym (a b : Z) : isoLtb a b = true -> isoLtb b a = false.
Proof. apply bytesLtb_asym. Qed.

Lemma isoLtb_negtrans (a b c : Z) :
  isoLtb a c = true -> isoLtb a b = true \/ isoLtb b c = true.
Proof. apply bytesLtb_negtrans. Qed.

Lemma isoLeb_refl (a : Z) : isoLeb a a = true.
Proof. unfold isoLeb. now rewrite isoLtb_irrefl. Qed.

Lemma isoLeb_trans (a b c : Z) :
  isoLeb a b = true -> isoLeb b c = true -> isoLeb a c = true.
Proof.
  unfold isoLeb. intros Hab Hbc. apply negb_true_iff in Hab, Hbc.
  apply negb_true_iff. destruct (isoLtb c a) eqn:E; [|reflexivity].
  destruct (isoLtb_negtrans c b a E); congruence.
Qed.

Lemma sortBy_iso_ascending {A : Type} (key : A -> Z) (l : list A) :
  StronglySorted (fun a b => isoLeb (key a) (key b) = true)
                 (sortBy (fun a b => isoLtb (key a) (key b)) l).
Proof.
  apply StronglySorted_weaken
    with (R := inOrder (fun a b => isoLtb (key a) (key b))).
  - intros a b H. unfold inOrder in H. unfold isoLeb. now rewrite H.
  - apply sortBy_sorted.
    + intros a b. apply isoLtb_asym.
    + intros a b c. apply isoLtb_negtrans.
Qed.

Lemma sortBy_iso_descending {A : Type} (key : A -> Z) (l : list A) :
  StronglySorted (fun a b => isoLeb (key b) (key a) = true)
                 (sortBy (fun a b => isoLtb (key b) (key a)) l).
Proof.
  apply StronglySorted_weaken
    with (R := inOrder (fun a b => isoLtb (key b) (key a))).
  - intros a b H. unfold inOrder in H. unfold isoLeb. now rewrite H.
  - apply sortBy_sorted.
    + intros a b. apply isoLtb_asym.
    + intros a b c H. destruct (isoLtb_negtrans _ (key b) _ H); auto.
Qed.

Example toISOString_renders :
  toISOString 1700000000000 = lit "2023-11-14T22:13:20.000Z"
  /\ toISOString 951782400000 = lit "2000-02-29T00:00:00.000Z"
  /\ toISOString (-1) = lit "1969-12-31T23:59:59.999Z"
  /\ toISOString 253402300800000 = lit "+010000-01-01T00:00:00.000Z"
  /\ toISOString (-62167219200001) = lit "-000001-12-31T23:59:59.999Z".
Proof. repeat split; vm_compute; reflexivity. Qed.

(** The order of the stored texts is that of the instants for dates of
    four-digit years, and not beyond: the text of a year after 9999
    begins with a plus sign, which sorts before every digit. *)
Example iso_text_order :
  isoLtb 1700000000000 1700000000001 = true
  /\ isoLtb 0 1700000000000 = true
  /\ isoLtb 253402300800000 1700000000000 = true.
Proof. repeat split; vm_compute; reflexivity. Qed.

(** ** The record store *)

Lemma existsb_row_id (x : jsstring) (rows : list Row) :
  existsb (fun w => eqb (row_id w) x) rows = true
  <-> In x (List.map row_id rows).
Proof.
  rewrite existsb_exists, in_map_iff. split.
  - intros (w & Hw & E). apply eqb_eq in E. now exists w.
  - intros (w & E & Hw). exists w. split; [exact Hw|]. now apply eqb_eq.
Qed.

Lemma eqb_refl (a : jsstring) : eqb a a = true.
Proof. now apply eqb_eq. Qed.

Lemma StronglySorted_map {A B : Type} (f : A -> B) (R : B -> B -> Prop)
  (l : list A) :
  StronglySorted (fun a b => R (f a) (f b)) l ->
  StronglySorted R (List.map f l).
Proof.
  induction 1 as [|x l Hs IH Hx]; simpl; constructor; [exact IH|].
  apply Forall_map. exact Hx.
Qed.

(** X1.  A record of well-formed texts saved under a fresh id can be read
    back: the records of its session then hold it, with every stored
    field as given and without a file path, and the session has one
    record more than before. *)
Theorem saved_record_is_retrievable (r : DialogueRecord) (rows : list Row) :
  wellFormed (id r) = true -> wellFormed (sessionId r) = true ->
  wellFormed (content r) = true ->
  ~ In (id r) (List.map row_id rows) ->
  exists d' recs,
    saveRecord r (Ready rows) = (Returned tt, d')
    /\ getRecordsBySession (sessionId r) d' = Returned recs
    /\ In (recordOf (rowOf r)) recs
    /\ List.length recs
       = S (List.length (sessionRows (sessionId r) (Ready rows))).
Proof.
  intros _ _ _ Hfresh. simpl saveRecord.
  destruct (existsb (fun w => eqb (row_id w) (id r)) rows) eqn:E.
  - apply existsb_row_id in E. contradiction.
  - eexists. eexists. split; [reflexivity|].
    unfold getRecordsBySession, withDb. split; [reflexivity|]. split.
    + apply in_map. unfold orderAsc. apply in_sortBy. apply filter_In.
      split; [apply in_or_app; right; now left|]. simpl. apply eqb_refl.
    + rewrite length_map. unfold orderAsc. rewrite sortBy_length.
      rewrite filter_app, length_app. simpl. rewrite eqb_refl. simpl. lia.
Qed.

Lemma saved_record_is_retrievable_witness :
  exists d' recs,
    saveRecord (Sample.dialogue "r2" "a second message for the store")
      (Ready [rowOf (Sample.dialogue "r1" "you can search the project")])
    = (Returned tt, d')
    /\ getRecordsBySession
         (sessionId (Sample.dialogue "r2" "a second message for the store")) d'
       = Returned recs
    /\ In (recordOf (rowOf (Sample.dialogue "r2" "a second message for the store")))
          recs
    /\ List.length recs
       = S (List.length
              (sessionRows
                 (sessionId (Sample.dialogue "r2" "a second message for the store"))
                 (Ready [rowOf (Sample.dialogue "r1" "you can search the project")]))).
Proof.
  apply (saved_record_is_retrievable
           (Sample.dialogue "r2" "a second message for the store")
           [rowOf (Sample.dialogue "r1" "you can search the project")]);
    try (vm_compute; reflexivity).
  vm_compute. intros [H|[]]. discriminate H.
Defined.

Lemma saveRecord_nodup (r : DialogueRecord) (d : Database) :
  NoDup (List.map row_id (storedRows d)) ->
  NoDup (List.map row_id (storedRows (snd (saveRecord r d)))).
Proof.
  intros Hnd. destruct d as [rows|e|e|]; simpl; try exact Hnd.
  destruct (existsb (fun w => eqb (row_id w) (id r)) rows) eqn:E; simpl;
    [exact Hnd|].
  rewrite map_app. simpl.
  apply Permutation_NoDup with (l := id r :: List.map row_id rows).
  - apply Permutation_cons_append.
  - constructor; [|exact Hnd]. intros Hin.
    apply existsb_row_id in Hin. congruence.
Qed.

(** X2.  The ids of the stored rows stay pairwise different through every
    [saveRecord]; a record whose id is already stored is refused and the
    store is left as it was. *)
Theorem saveRecord_keeps_ids_unique (r : DialogueRecord) (d : Database) :
  NoDup (List.map row_id (storedRows d)) ->
  NoDup (List.map row_id (storedRows (snd (saveRecord r d))))
  /\ (In (id r) (List.map row_id (storedRows d)) ->
      saveRecord r d = (Thrown (SqliteError (lit "SQLITE_CONSTRAINT")), d)).
Proof.
  intros Hnd. split; [now apply saveRecord_nodup|].
  destruct d as [rows|e|e|]; simpl; try tauto.
  intros Hin. apply existsb_row_id in Hin. now rewrite Hin.
Qed.

Lemma saveRecord_keeps_ids_unique_witness :
  NoDup (List.map row_id
           (storedRows
              (snd (saveRecord (Sample.dialogue "r1" "the same id once more")
                      (Ready [rowOf (Sample.dialogue "r1" "you can search the project")])))))
  /\ (In (id (Sample.dialogue "r1" "the same id once more"))
         (List.map row_id
            (storedRows
               (Ready [rowOf (Sample.dialogue "r1" "you can search the project")]))) ->
      saveRecord (Sample.dialogue "r1" "the same id once more")
        (Ready [rowOf (Sample.dialogue "r1" "you can search the project")])
      = (Thrown (SqliteError (lit "SQLITE_CONSTRAINT")),
         Ready [rowOf (Sample.dialogue "r1" "you can search the project")])).
Proof.
  apply (saveRecord_keeps_ids_unique
           (Sample.dialogue "r1" "the same id once more")
           (Ready [rowOf (Sample.dialogue "r1" "you can search the project")])).
  simpl. constructor; [intros []|constructor].
Defined.

(** X3.  For a well-formed session id, [getRecordsBySession] returns
    exactly the stored records of the session, each once, in ascending
    order of the ISO texts of their timestamps, which is the order the
    store sorts by. *)
Theorem session_records_sorted_and_complete (sid : jsstring) (rows : list Row) :
  wellFormed sid = true ->
  exists recs,
    getRecordsBySession sid (Ready rows) = Returned recs
    /\ Permutation recs
         (List.map recordOf
            (filter (fun w => eqb (row_session_id w) sid) rows))
    /\ Forall (fun r => sessionId r = sid) recs
    /\ StronglySorted (fun a b => isoLeb (timestamp a) (timestamp b) = true)
         recs.
Proof.
  intros _. eexists. split; [reflexivity|]. split; [|split].
  - apply Permutation_map. apply sortBy_perm.
  - apply Forall_forall. intros r Hr. apply in_map_iff in Hr.
    destruct Hr as (w & <- & Hw). apply in_sortBy, filter_In in Hw.
    destruct Hw as [_ Hw]. now apply eqb_eq in Hw.
  - apply StronglySorted_map. simpl. apply sortBy_iso_ascending.
Qed.

Lemma session_records_sorted_and_complete_witness :
  exists recs,
    getRecordsBySession (lit "session_1") Sample.projectStore = Returned recs
    /\ Permutation recs
         (List.map recordOf
            (filter (fun w => eqb (row_session_id w) (lit "session_1"))
                    [rowOf (Sample.dialogue "r1" Sample.projectText)]))
    /\ Forall (fun r => sessionId r = lit "session_1") recs
    /\ StronglySorted (fun a b => isoLeb (timestamp a) (timestamp b) = true)
         recs.
Proof.
  apply (session_records_sorted_and_complete (lit "session_1")
           [rowOf (Sample.dialogue "r1" Sample.projectText)]).
  vm_compute. reflexivity.
Defined.

(** *** The operator [LIKE] *)

Lemma like_percent_nil (p : jsstring) : like (37%N :: p) [] = like p [].
Proof. simpl. now rewrite orb_false_r. Qed.

Lemma like_percent_cons (p : jsstring) (c : N) (s : jsstring) :
  like (37%N :: p) (c :: s) = like p (c :: s) || like (37%N :: p) s.
Proof. reflexivity. Qed.

Lemma like_percent_all (s : jsstring) : like [37%N] s = true.
Proof.
  induction s as [|c s IH]; [reflexivity|].
  rewrite like_percent_cons, IH. apply orb_true_r.
Qed.

Lemma like_percent_skip (p pre s : jsstring) :
  like p s = true -> like (37%N :: p) (pre ++ s) = true.
Proof.
  intros H. induction pre as [|c pre IH]; simpl app.
  - destruct s as [|d s].
    + now rewrite like_percent_nil.
    + rewrite like_percent_cons, H. reflexivity.
  - rewrite like_percent_cons, IH. apply orb_true_r.
Qed.

Lemma like_same_prefix (p q t : jsstring) :
  like q t = true -> like (p ++ q) (p ++ t) = true.
Proof.
  intros H. induction p as [|c p IH]; [exact H|].
  simpl app. destruct (c =? 37)%N eqn:E37.
  - apply N.eqb_eq in E37. subst c.
    rewrite like_percent_cons. apply orb_true_iff. right.
    now apply (like_percent_skip (p ++ q) [] (p ++ t)).
  - destruct (c =? 95)%N eqn:E95.
    + apply N.eqb_eq in E95. subst c. simpl.
      destruct (p ++ t); exact IH.
    + simpl. rewrite E37, E95, N.eqb_refl. exact IH.
Qed.

(** A text in which the keyword occurs as it is written matches the
    pattern that [searchRecords] builds from the keyword. *)
Lemma like_of_occurrence (kw text : jsstring) :
  Occurs kw text -> like (lit "%" ++ kw ++ lit "%") text = true.
Proof.
  intros (pre & post & ->). change (lit "%") with [37%N]. simpl app.
  apply like_percent_skip. apply like_same_prefix. apply like_percent_all.
Qed.

Lemma cutNul_app (a b : jsstring) :
  cutNul a = a -> cutNul (a ++ b) = a ++ cutNul b.
Proof.
  induction a as [|c a IH]; simpl; [reflexivity|].
  destruct (c =? 0)%N; [discriminate|].
  intros H. injection H as H. now rewrite IH.
Qed.

Lemma likeText_of_occurrence (kw text : jsstring) :
  cutNul kw = kw -> Occurs kw (cutNul text) ->
  likeText (lit "%" ++ kw ++ lit "%") text = true.
Proof.
  intros Hkw Hocc. unfold likeText.
  rewrite (cutNul_app (lit "%")) by reflexivity.
  rewrite (cutNul_app kw) by exact Hkw.
  now apply like_of_occurrence.
Qed.

(** An empty keyword matches every text. *)
Lemma like_empty_keyword (text : jsstring) :
  likeText (lit "%" ++ [] ++ lit "%") text = true.
Proof.
  apply likeText_of_occurrence; [reflexivity|]. now exists [], (cutNul text).
Qed.

(** X4.  For a well-formed keyword without NUL whose pattern is within
    the limit of the store, [searchRecords] returns its records in
    descending order of the ISO texts of their timestamps, each within
    the given bounds as the store compares them, and it misses no stored
    record within the bounds in whose text the keyword occurs, as
    written, before any NUL. *)
Theorem searchRecords_sound_and_complete
  (kw : jsstring) (st et : option Z) (rows : list Row) :
  wellFormed kw = true -> cutNul kw = kw ->
  withinLikeLimit (lit "%" ++ kw ++ lit "%") = true ->
  exists recs,
    searchRecords kw st et (Ready rows) = Returned recs
    /\ StronglySorted (fun a b => isoLeb (timestamp b) (timestamp a) = true)
         recs
    /\ Forall (fun r => optLeb st (timestamp r) = true
                        /\ optGeb et (timestamp r) = true) recs
    /\ (forall w, In w rows -> Occurs kw (cutNul (row_content w)) ->
                  optLeb st (row_timestamp w) = true ->
                  optGeb et (row_timestamp w) = true ->
                  In (recordOf w) recs).
Proof.
  intros _ Hkw _. eexists. split; [reflexivity|]. split; [|split].
  - apply StronglySorted_map. simpl. apply sortBy_iso_descending.
  - apply Forall_forall. intros r Hr. apply in_map_iff in Hr.
    destruct Hr as (w & <- & Hw). apply in_sortBy, filter_In in Hw.
    destruct Hw as [_ Hw]. apply andb_prop in Hw. destruct Hw as [Hw He].
    apply andb_prop in Hw. destruct Hw as [_ Hs]. now split.
  - intros w Hw Hocc Hs He. apply in_map. apply in_sortBy, filter_In.
    split; [exact Hw|].
    now rewrite (likeText_of_occurrence _ _ Hkw Hocc), Hs, He.
Qed.

Lemma searchRecords_sound_and_complete_witness :
  exists recs,
    searchRecords (lit "project") None None Sample.projectStore = Returned recs
    /\ StronglySorted (fun a b => isoLeb (timestamp b) (timestamp a) = true)
         recs
    /\ Forall (fun r => optLeb None (timestamp r) = true
                        /\ optGeb None (timestamp r) = true) recs
    /\ (forall w,
          In w [rowOf (Sample.dialogue "r1" Sample.projectText)] ->
          Occurs (lit "project") (cutNul (row_content w)) ->
          optLeb None (row_timestamp w) = true ->
          optGeb None (row_timestamp w) = true ->
          In (recordOf w) recs).
Proof.
  apply (searchRecords_sound_and_complete (lit "project") None None
           [rowOf (Sample.dialogue "r1" Sample.projectText)]).
  - vm_compute. reflexivity.
  - vm_compute. reflexivity.
  - vm_compute. reflexivity.
Defined.

(** ** Sessions *)

Lemma fold_isoMin_spec (a : Z) (l : list Z) :
  In (fold_right isoMin a l) (a :: l)
  /\ Forall (fun x => isoLeb (fold_right isoMin a l) x = true) (a :: l).
Proof.
  induction l as [|b l [IHin IHle]]; simpl.
  - split; [now left|]. constructor; [apply isoLeb_refl|constructor].
  - set (m := fold_right isoMin a l) in *.
    inversion IHle as [|? ? Ha Hl]; subst. unfold isoMin.
    destruct (isoLtb m b) eqn:E.
    + assert (isoLeb m b = true) as Hb
          by (unfold isoLeb; now rewrite (isoLtb_asym _ _ E)).
      split; [destruct IHin as [<-|Hin]; [now left|right; now right]|].
      constructor; [exact Ha|]. constructor; [exact Hb|exact Hl].
    + assert (isoLeb b m = true) as Hb by (unfold isoLeb; now rewrite E).
      split; [right; now left|].
      constructor; [now apply isoLeb_trans with m|].
      constructor; [apply isoLeb_refl|].
      eapply Forall_impl; [|exact Hl]. simpl. intros x Hx.
      now apply isoLeb_trans with m.
Qed.

Lemma fold_isoMax_spec (a : Z) (l : list Z) :
  In (fold_right isoMax a l) (a :: l)
  /\ Forall (fun x => isoLeb x (fold_right isoMax a l) = true) (a :: l).
Proof.
  induction l as [|b l [IHin IHle]]; simpl.
  - split; [now left|]. constructor; [apply isoLeb_refl|constructor].
  - set (m := fold_right isoMax a l) in *.
    inversion IHle as [|? ? Ha Hl]; subst. unfold isoMax.
    destruct (isoLtb b m) eqn:E.
    + assert (isoLeb b m = true) as Hb
          by (unfold isoLeb; now rewrite (isoLtb_asym _ _ E)).
      split; [destruct IHin as [<-|Hin]; [now left|right; now right]|].
      constructor; [exact Ha|]. constructor; [exact Hb|exact Hl].
    + assert (isoLeb m b = true) as Hb by (unfold isoLeb; now rewrite E).
      split; [right; now left|].
      constructor; [now apply isoLeb_trans with m|].
      constructor; [apply isoLeb_refl|].
      eapply Forall_impl; [|exact Hl]. simpl. intros x Hx.
      now apply isoLeb_trans with m.
Qed.

(** The aggregate row of a session that has rows. *)
Lemma sessionInfoQuery_spec (sid : jsstring) (rows : list Row)
  (info : SessionInfo) :
  sessionInfoQuery sid rows = Some info ->
  let ws := filter (fun w => eqb (row_session_id w) sid) rows in
  info_sessionId info = sid
  /\ info_totalRecords info = List.length ws
  /\ In (info_startTime info) (List.map row_timestamp ws)
  /\ In (info_endTime info) (List.map row_timestamp ws)
  /\ Forall (fun w => isoLeb (info_startTime info) (row_timestamp w) = true
                      /\ isoLeb (row_timestamp w) (info_endTime info) = true)
            ws.
Proof.
  unfold sessionInfoQuery. simpl.
  destruct (filter (fun w => eqb (row_session_id w) sid) rows)
    as [|w ws] eqn:E; [discriminate|].
  intros H. injection H as <-. simpl.
  assert (In w (filter (fun w => eqb (row_session_id w) sid) rows)) as Hw
      by (rewrite E; now left).
  apply filter_In in Hw. destruct Hw as [_ Hw]. apply eqb_eq in Hw.
  destruct (fold_isoMin_spec (row_timestamp w) (List.map row_timestamp ws))
    as [Hmin Hle].
  destruct (fold_isoMax_spec (row_timestamp w) (List.map row_timestamp ws))
    as [Hmax Hge].
  repeat split; try assumption.
  change (row_timestamp w :: List.map row_timestamp ws)
    with (List.map row_timestamp (w :: ws)) in Hle, Hge.
  rewrite Forall_map in Hle, Hge. rewrite Forall_forall in *.
  intros x Hx. split; [now apply Hle|now apply Hge].
Qed.

(** X5.  For a session of well-formed id that has records in an open
    store, [getSessionDetail] returns: its records are those of the
    session as [getRecordsBySession] lists them, [totalRecords] is their
    number, and [startTime] and [endTime] are timestamps of records
    between whose ISO texts the text of every record's timestamp lies. *)
Theorem known_session_detail_is_consistent (sid : jsstring) (rows : list Row) :
  wellFormed sid = true ->
  sessionRows sid (Ready rows) <> [] ->
  exists detail,
    getSessionDetail sid (Ready rows) = Returned detail
    /\ getRecordsBySession sid (Ready rows) = Returned (records detail)
    /\ detailSessionId detail = sid
    /\ totalRecords detail = List.length (records detail)
    /\ (0 < totalRecords detail)%nat
    /\ Forall (fun r => isoLeb (detailStartTime detail) (timestamp r) = true
                        /\ isoLeb (timestamp r) (detailEndTime detail) = true)
              (records detail)
    /\ In (detailStartTime detail) (List.map timestamp (records detail))
    /\ In (detailEndTime detail) (List.map timestamp (records detail)).
Proof.
  intros _ Hne. simpl in Hne. unfold getSessionDetail, withDb.
  destruct (sessionInfoQuery sid rows) as [info|] eqn:Hq.
  - destruct (sessionInfoQuery_spec _ _ _ Hq) as (Hid & Hn & Hs & He & Hb).
    simpl. eexists. split; [reflexivity|]. simpl.
    set (ws := filter (fun w => eqb (row_session_id w) sid) rows) in *.
    assert (forall w, In w (orderAsc ws) <-> In w ws) as Hin
        by (intros w; apply in_sortBy).
    split; [reflexivity|]. split; [exact Hid|].
    split; [rewrite Hn, length_map; unfold orderAsc; now rewrite sortBy_length|].
    split; [rewrite Hn; destruct ws; [congruence|simpl; lia]|].
    split; [|split].
    + apply Forall_map. apply Forall_forall. intros w Hw.
      rewrite Forall_forall in Hb. simpl. apply Hb. now apply Hin.
    + rewrite map_map. simpl. apply in_map_iff in Hs.
      destruct Hs as (w & <- & Hw). apply in_map_iff. exists w.
      split; [reflexivity|]. now apply Hin.
    + rewrite map_map. simpl. apply in_map_iff in He.
      destruct He as (w & <- & Hw). apply in_map_iff. exists w.
      split; [reflexivity|]. now apply Hin.
  - unfold sessionInfoQuery in Hq.
    destruct (filter (fun w => eqb (row_session_id w) sid) rows);
      [congruence|discriminate].
Qed.

Lemma known_session_detail_is_consistent_witness :
  exists detail,
    getSessionDetail (lit "session_1")
      (Ready [rowOf (Sample.dialogue "r1" "you can search the project")])
    = Returned detail
    /\ getRecordsBySession (lit "session_1")
         (Ready [rowOf (Sample.dialogue "r1" "you can search the project")])
       = Returned (records detail)
    /\ detailSessionId detail = lit "session_1"
    /\ totalRecords detail = List.length (records detail)
    /\ (0 < totalRecords detail)%nat
    /\ Forall (fun r => isoLeb (detailStartTime detail) (timestamp r) = true
                        /\ isoLeb (timestamp r) (detailEndTime detail) = true)
              (records detail)
    /\ In (detailStartTime detail) (List.map timestamp (records detail))
    /\ In (detailEndTime detail) (List.map timestamp (records detail)).
Proof.
  apply (known_session_detail_is_consistent (lit "session_1")
           [rowOf (Sample.dialogue "r1" "you can search the project")]).
  - vm_compute. reflexivity.
  - vm_compute. discriminate.
Defined.

Lemma in_distinctIds (x : jsstring) (l : list jsstring) :
  In x (distinctIds l) <-> In x l.
Proof.
  induction l as [|s l IH]; simpl; [tauto|].
  rewrite filter_In, IH. split.
  - intros [->|[H _]]; auto.
  - intros [->|H]; [now left|].
    destruct (list_eq_dec N.eq_dec x s) as [->|Hne]; [now left|].
    right. split; [exact H|]. apply negb_true_iff.
    destruct (eqb x s) eqn:E; [|reflexivity]. apply eqb_eq in E. congruence.
Qed.

Lemma NoDup_filter {A : Type} (f : A -> bool) (l : list A) :
  NoDup l -> NoDup (filter f l).
Proof.
  induction 1 as [|x l Hx Hl IH]; simpl; [constructor|].
  destruct (f x); [|exact IH]. constructor; [|exact IH].
  rewrite filter_In. tauto.
Qed.

Lemma NoDup_distinctIds (l : list jsstring) : NoDup (distinctIds l).
Proof.
  induction l as [|s l IH]; simpl; constructor.
  - rewrite filter_In. intros [_ H]. now rewrite eqb_refl in H.
  - now apply NoDup_filter.
Qed.

(** Grouping the rows by session and concatenating the groups gives every
    row back once. *)
Lemma rows_by_session_perm (rows : list Row) (ids : list jsstring) :
  NoDup ids ->
  (forall w, In w rows -> In (row_session_id w) ids) ->
  Permutation
    (flat_map (fun sid => filter (fun w => eqb (row_session_id w) sid) rows)
              ids)
    rows.
Proof.
  intros Hnd. induction rows as [|w rs IH]; intros Hall.
  - clear Hnd Hall. induction ids as [|a ids IHi]; [reflexivity|exact IHi].
  - apply Permutation_trans
      with (w :: flat_map
                   (fun sid => filter (fun x => eqb (row_session_id x) sid) rs)
                   ids);
      [|constructor; apply IH; intros x Hx; apply Hall; now right].
    assert (In (row_session_id w) ids) as Hw by (apply Hall; now left).
    clear IH Hall. induction ids as [|a ids IHi]; [destruct Hw|].
    inversion Hnd as [|? ? Ha Hnd']; subst. simpl flat_map.
    cbn [filter]. destruct (eqb (row_session_id w) a) eqn:E.
    + apply eqb_eq in E. subst a. simpl. constructor.
      apply Permutation_app_head.
      assert (forall l, ~ In (row_session_id w) l ->
                flat_map (fun sid => filter (fun x => eqb (row_session_id x) sid)
                                            (w :: rs)) l
                = flat_map (fun sid => filter (fun x => eqb (row_session_id x) sid)
                                              rs) l) as Hsame.
      { induction l as [|b l IHl]; intros Hb; [reflexivity|]. simpl.
        destruct (eqb (row_session_id w) b) eqn:Eb.
        - apply eqb_eq in Eb. subst b. exfalso. apply Hb. now left.
        - f_equal. apply IHl. intros Hl. apply Hb. now right. }
      rewrite <- (Hsame ids Ha). reflexivity.
    + destruct Hw as [->|Hw]; [now rewrite eqb_refl in E|].
      rewrite (IHi Hnd' Hw). symmetry. apply Permutation_middle.
Qed.





Lemma optLtb_asym (a b : option Z) : optLtb a b = true -> optLtb b a = false.
Proof. destruct a, b; simpl; try congruence. apply isoLtb_asym. Qed.

Lemma optLtb_negtrans (a b c : option Z) :
  optLtb a c = true -> optLtb a b = true \/ optLtb b c = true.
Proof.
  destruct a as [x|], b as [y|], c as [z|]; simpl; try tauto; try congruence.
  apply isoLtb_negtrans.
Qed.

Lemma getAllSessions_ready (rows : list Row) :
  exists sessions,
    getAllSessions (Ready rows) = Returned sessions
    /\ sessions
       = sortBy (fun a b => optLtb (lastTimestampOf rows b)
                                   (lastTimestampOf rows a))
                (distinctIds (List.map row_session_id rows))
    /\ NoDup sessions
    /\ (forall sid, In sid sessions <-> In sid (List.map row_session_id rows)).
Proof.
  eexists. split; [reflexivity|]. split; [reflexivity|]. split.
  - apply Permutation_NoDup
      with (l := distinctIds (List.map row_session_id rows)).
    + symmetry. apply sortBy_perm.
    + apply NoDup_distinctIds.
  - intros sid. rewrite in_sortBy. apply in_distinctIds.
Qed.

(** X7.  [getAllSessions] lists every session id of the store exactly
    once, in descending order of the ISO texts of the sessions' last
    timestamps. *)
Theorem all_sessions_distinct_and_ordered (rows : list Row) :
  exists sessions,
    getAllSessions (Ready rows) = Returned sessions
    /\ NoDup sessions
    /\ (forall sid, In sid sessions <-> In sid (List.map row_session_id rows))
    /\ StronglySorted
         (fun a b => forall ta tb,
              lastTimestampOf rows a = Some ta ->
              lastTimestampOf rows b = Some tb -> isoLeb tb ta = true)
         sessions.
Proof.
  destruct (getAllSessions_ready rows) as (sessions & Hget & Hdef & Hnd & Hin).
  exists sessions. repeat split; try assumption; try (now apply Hin).
  set (before := fun a b : jsstring =>
                   optLtb (lastTimestampOf rows b) (lastTimestampOf rows a)).
  apply StronglySorted_weaken with (R := inOrder before).
  - intros a b H ta tb Ha Hb. unfold inOrder, before in H.
    rewrite Ha, Hb in H. simpl in H. unfold isoLeb. now rewrite H.
  - rewrite Hdef. apply sortBy_sorted.
    + intros a b. apply optLtb_asym.
    + intros a b c H. unfold before in *.
      destruct (optLtb_negtrans _ (lastTimestampOf rows b) _ H); auto.
Qed.

Lemma flat_map_perm_pointwise {A B : Type} (f g : A -> list B) (l : list A) :
  (forall x, Permutation (f x) (g x)) ->
  Permutation (flat_map f l) (flat_map g l).
Proof.
  intros H. induction l as [|x l IH]; simpl; [reflexivity|].
  now apply Permutation_app.
Qed.

Lemma map_flat_map_comm {A B C : Type} (h : B -> C) (f : A -> list B)
  (l : list A) :
  List.map h (flat_map f l) = flat_map (fun x => List.map h (f x)) l.
Proof.
  induction l as [|x l IH]; simpl; [reflexivity|].
  now rewrite map_app, IH.
Qed.

Lemma concatSessions_ready (rows : list Row) (ids : list jsstring)
  (acc : list DialogueRecord) :
  concatSessions (Ready rows) ids acc
  = Returned
      (acc ++ flat_map
                (fun sid =>
                   List.map recordOf
                     (orderAsc
                        (filter (fun w => eqb (row_session_id w) sid) rows)))
                ids).
Proof.
  revert acc. induction ids as [|sid ids IH]; intros acc; simpl.
  - now rewrite app_nil_r.
  - rewrite IH. now rewrite app_assoc.
Qed.

(** X8.  The records that the panel loads from an open store are the
    stored records, each exactly once, newest first. *)
Theorem loadRecords_returns_every_record_once (rows : list Row) :
  exists recs,
    loadRecords (Ready rows) = Returned recs
    /\ Permutation recs (List.map recordOf rows)
    /\ StronglySorted (fun a b => (timestamp b <= timestamp a)%Z) recs.
Proof.
  unfold loadRecords.
  destruct (getAllSessions_ready rows) as (sessions & -> & _ & Hnd & Hin).
  rewrite concatSessions_ready. simpl app.
  eexists. split; [reflexivity|]. split.
  - rewrite sortBy_perm.
    rewrite (flat_map_perm_pointwise _
               (fun sid => List.map recordOf
                             (filter (fun w => eqb (row_session_id w) sid) rows)))
      by (intros sid; apply Permutation_map, sortBy_perm).
    rewrite <- map_flat_map_comm. apply Permutation_map.
    apply rows_by_session_perm; [exact Hnd|].
    intros w Hw. apply Hin. now apply in_map.
  - apply sortBy_key_descending.
Qed.

(** ** Ranking *)

Lemma calculateRelevance_range
  (toLowerCase : jsstring -> jsstring)
  (hostMatchCount : jsstring -> jsstring -> Outcome nat)
  (r : DialogueRecord) (kw : jsstring) (q : Q) :
  calculateRelevance toLowerCase hostMatchCount r kw = Returned q ->
  0 <= q /\ q <= 1.
Proof.
  unfold calculateRelevance. destruct (negb (truthy kw)).
  - intros H. injection H as <-. split; lra.
  - destruct (includes _ _).
    + destruct (matchCount _ _ _) as [n|e]; [|discriminate].
      intros H. injection H as <-. split; [|apply Q.le_min_l].
      apply Q.min_glb; [lra|].
      assert (0 <= inject_Z (Z.of_nat n)) as Hn
          by (unfold Qle; simpl; lia).
      match goal with
      | |- context [Qmax 0 ?x] => pose proof (Q.le_max_l 0 x) as Hp
      end.
      lra.
    + intros H. injection H as <-. split; lra.
Qed.

(** X9.  The relevance of every search result lies between 0 and 1. *)
Theorem search_relevance_in_unit_interval
  (toLowerCase : jsstring -> jsstring)
  (hostMatchCount : jsstring -> jsstring -> Outcome nat)
  (criteria : SearchCriteria) (d : Database) (results : list SearchResult)
  (x : SearchResult) :
  search toLowerCase hostMatchCount criteria d = Returned results ->
  In x results ->
  0 <= relevance x /\ relevance x <= 1.
Proof.
  intros Hs Hx.
  destruct (search_result_origin _ _ _ _ _ _ Hs Hx) as (_ & _ & _ & _ & Hq & _).
  exact (calculateRelevance_range _ _ _ _ _ Hq).
Qed.

Lemma search_relevance_in_unit_interval_witness :
  0 <= relevance Sample.projectResult /\ relevance Sample.projectResult <= 1.
Proof.
  apply (search_relevance_in_unit_interval asciiLower Sample.hostMatchCount
           (Sample.criteria (Some (lit "Project")) None) Sample.projectStore
           [Sample.projectResult] Sample.projectResult).
  - vm_compute. reflexivity.
  - left. reflexivity.
Defined.

Lemma search_returns_sorted
  (toLowerCase : jsstring -> jsstring)
  (hostMatchCount : jsstring -> jsstring -> Outcome nat)
  (criteria : SearchCriteria) (d : Database) (results : list SearchResult) :
  search toLowerCase hostMatchCount criteria d = Returned results ->
  exists unsorted, results = sortBy moreRelevant unsorted.
Proof.
  unfold search. destruct (searchRecords _ _ _ d); [|discriminate].
  destruct (mapOutcome _ _) as [rs|e]; [|discriminate].
  intros H. injection H as <-. now exists rs.
Qed.

(** X10.  The results of a search are in descending order of relevance:
    no result is more relevant than one that precedes it. *)
Theorem search_results_descend
  (toLowerCase : jsstring -> jsstring)
  (hostMatchCount : jsstring -> jsstring -> Outcome nat)
  (criteria : SearchCriteria) (d : Database) (results : list SearchResult) :
  search toLowerCase hostMatchCount criteria d = Returned results ->
  StronglySorted (fun a b => relevance b <= relevance a) results.
Proof.
  intros Hs. destruct (search_returns_sorted _ _ _ _ _ Hs) as (l & ->).
  apply StronglySorted_weaken with (R := inOrder moreRelevant).
  - intros a b H. unfold inOrder, moreRelevant in H.
    apply negb_false_iff in H. now apply Qle_bool_iff in H.
  - apply sortBy_sorted.
    + intros a b H. unfold moreRelevant in *.
      apply negb_true_iff in H. apply negb_false_iff.
      apply Qle_bool_iff. destruct (Qlt_le_dec (relevance b) (relevance a));
        [now apply Qlt_le_weak|].
      apply Qle_bool_iff in q. congruence.
    + intros a b c H. unfold moreRelevant in *. apply negb_true_iff in H.
      destruct (Qle_bool (relevance a) (relevance b)) eqn:Eab; [|now left].
      right. apply negb_true_iff.
      destruct (Qle_bool (relevance b) (relevance c)) eqn:Ebc; [|reflexivity].
      apply Qle_bool_iff in Eab, Ebc.
      assert (Qle_bool (relevance a) (relevance c) = true) as Hac
          by (apply Qle_bool_iff; lra).
      congruence.
Qed.

Lemma search_results_descend_witness :
  StronglySorted (fun a b => relevance b <= relevance a)
    [ {| record := Sample.dialogue "r1" "no match here, alas: pro_ect";
         relevance := 17500 # 28000;
         highlights := [lit "o match here, alas: pro_ect"] |};
      {| record := Sample.dialogue "r2" "xx a project";
         relevance := 0; highlights := [] |} ].
Proof.
  apply (search_results_descend asciiLower Sample.hostMatchCount
           (Sample.criteria (Some (lit "pro_ect")) None)
           (Ready [rowOf (Sample.dialogue "r0" "other");
                   rowOf (Sample.dialogue "r1" "no match here, alas: pro_ect");
                   rowOf (Sample.dialogue "r2" "xx a project")])).
  vm_compute. reflexivity.
Defined.

(** ** Filtering *)

Lemma searchRecords_in
  (kw : jsstring) (st et : option Z) (d : Database)
  (recs : list DialogueRecord) (r : DialogueRecord) :
  searchRecords kw st et d = Returned recs -> In r recs ->
  exists w,
    r = recordOf w /\ In w (storedRows d)
    /\ likeText (lit "%" ++ kw ++ lit "%") (row_content w) = true
    /\ optLeb st (row_timestamp w) = true
    /\ optGeb et (row_timestamp w) = true.
Proof.
  destruct d as [rows|e|e|]; simpl; try discriminate.
  intros H Hr. injection H as <-. apply in_map_iff in Hr.
  destruct Hr as (w & <- & Hw). apply in_sortBy, filter_In in Hw.
  destruct Hw as [Hw Hf]. apply andb_prop in Hf. destruct Hf as [Hf He].
  apply andb_prop in Hf. destruct Hf as [Hl Hs]. exists w. auto.
Qed.

Lemma mapOutcome_records
  (toLowerCase : jsstring -> jsstring)
  (hostMatchCount : jsstring -> jsstring -> Outcome nat)
  (kw : jsstring) (l : list DialogueRecord) (ys : list SearchResult) :
  mapOutcome (toSearchResult toLowerCase hostMatchCount kw) l = Returned ys ->
  List.map record ys = l.
Proof.
  revert ys. induction l as [|r l IH]; simpl; intros ys H.
  - now injection H as <-.
  - unfold toSearchResult at 1 in H.
    destruct (calculateRelevance _ _ r kw) as [q|e]; [|discriminate].
    destruct (mapOutcome _ l) as [bs|e]; [|discriminate].
    injection H as <-. simpl. now rewrite (IH bs eq_refl).
Qed.

(** X11.  Every result of a search satisfies the structured criteria: its
    speaker and its record type are the requested ones, when requested,
    and the ISO text of its timestamp lies within the ISO texts of the
    requested bounds, as the store compares them. *)
Theorem search_results_satisfy_criteria
  (toLowerCase : jsstring -> jsstring)
  (hostMatchCount : jsstring -> jsstring -> Outcome nat)
  (criteria : SearchCriteria) (d : Database) (results : list SearchResult)
  (x : SearchResult) :
  search toLowerCase hostMatchCount criteria d = Returned results ->
  In x results ->
  (forall sp, criteriaSpeaker criteria = Some sp -> speaker (record x) = sp)
  /\ (forall t, criteriaRecordType criteria = Some t ->
                recordType (record x) = t)
  /\ optLeb (startTime criteria) (timestamp (record x)) = true
  /\ optGeb (endTime criteria) (timestamp (record x)) = true.
Proof.
  intros Hs Hx.
  destruct (search_result_origin _ _ _ _ _ _ Hs Hx)
    as (recs & Hrecs & Hin & Hm & _).
  destruct (searchRecords_in _ _ _ _ _ _ Hrecs Hin)
    as (w & Hw & _ & _ & Hst & Het).
  unfold matchesCriteria in Hm. repeat split.
  - intros sp Hsp. rewrite Hsp in Hm.
    destruct (speaker (record x)), sp; simpl in Hm; congruence.
  - intros t Ht. rewrite Ht in Hm.
    destruct (criteriaSpeaker criteria) as [sp|];
      [destruct (negb (Speaker_eqb (speaker (record x)) sp));
       [discriminate|]|];
      destruct (recordType (record x)), t; simpl in Hm; congruence.
  - rewrite Hw. exact Hst.
  - rewrite Hw. exact Het.
Qed.

Lemma search_results_satisfy_criteria_witness :
  (forall sp, criteriaSpeaker Sample.boundedCriteria = Some sp ->
              speaker (record Sample.projectResult) = sp)
  /\ (forall t, criteriaRecordType Sample.boundedCriteria = Some t ->
                recordType (record Sample.projectResult) = t)
  /\ optLeb (startTime Sample.boundedCriteria)
            (timestamp (record Sample.projectResult)) = true
  /\ optGeb (endTime Sample.boundedCriteria)
            (timestamp (record Sample.projectResult)) = true.
Proof.
  apply (search_results_satisfy_criteria asciiLower Sample.hostMatchCount
           Sample.boundedCriteria Sample.projectStore
           [Sample.projectResult] Sample.projectResult).
  - vm_compute. reflexivity.
  - left. reflexivity.
Defined.

(** X12.  A search that returns neither loses nor repeats a record: its
    results hold, each once, the records that the store returned for the
    keyword and the time bounds and that pass the in-memory filter. *)
Theorem search_keeps_every_filtered_record
  (toLowerCase : jsstring -> jsstring)
  (hostMatchCount : jsstring -> jsstring -> Outcome nat)
  (criteria : SearchCriteria) (d : Database) (results : list SearchResult) :
  search toLowerCase hostMatchCount criteria d = Returned results ->
  exists recs,
    searchRecords (orEmpty (keyword criteria)) (startTime criteria)
                  (endTime criteria) d = Returned recs
    /\ Permutation (List.map record results)
                   (filter (matchesCriteria criteria) recs).
Proof.
  unfold search. intros H.
  destruct (searchRecords _ _ _ d) as [recs|e]; [|discriminate].
  destruct (mapOutcome _ _) as [rs|e] eqn:Hm; [|discriminate].
  injection H as <-. exists recs. split; [reflexivity|].
  rewrite <- (mapOutcome_records _ _ _ _ _ Hm).
  apply Permutation_map. apply sortBy_perm.
Qed.

Lemma search_keeps_every_filtered_record_witness :
  exists recs,
    searchRecords (orEmpty (keyword (Sample.criteria (Some (lit "Project")) None)))
      (startTime (Sample.criteria (Some (lit "Project")) None))
      (endTime (Sample.criteria (Some (lit "Project")) None))
      Sample.projectStore = Returned recs
    /\ Permutation (List.map record [Sample.projectResult])
         (filter (matchesCriteria (Sample.criteria (Some (lit "Project")) None))
                 recs).
Proof.
  apply (search_keeps_every_filtered_record asciiLower Sample.hostMatchCount
           (Sample.criteria (Some (lit "Project")) None) Sample.projectStore
           [Sample.projectResult]).
  vm_compute. reflexivity.
Defined.

Lemma filter_ext_in' {A : Type} (f g : A -> bool) (l : list A) :
  (forall x, In x l -> f x = g x) -> filter f l = filter g l.
Proof.
  induction l as [|x l IH]; intros H; simpl; [reflexivity|].
  rewrite (H x) by now left. rewrite IH by (intros y Hy; apply H; now right).
  reflexivity.
Qed.

(** X13.  The [fileExtension] criterion has no effect on a search: the
    records that the store returns carry no file path, so a search with an
    extension returns what the same search without it returns. *)
Theorem fileExtension_is_ignored
  (toLowerCase : jsstring -> jsstring)
  (hostMatchCount : jsstring -> jsstring -> Outcome nat)
  (criteria : SearchCriteria) (d : Database) :
  search toLowerCase hostMatchCount criteria d
  = search toLowerCase hostMatchCount
      {| keyword := keyword criteria; startTime := startTime criteria;
         endTime := endTime criteria;
         criteriaSpeaker := criteriaSpeaker criteria;
         criteriaRecordType := criteriaRecordType criteria;
         fileExtension := None |} d.
Proof.
  unfold search. simpl.
  destruct (searchRecords _ _ _ d) as [recs|e] eqn:Hrecs; [|reflexivity].
  rewrite (filter_ext_in' (matchesCriteria criteria)
             (matchesCriteria
                {| keyword := keyword criteria; startTime := startTime criteria;
                   endTime := endTime criteria;
                   criteriaSpeaker := criteriaSpeaker criteria;
                   criteriaRecordType := criteriaRecordType criteria;
                   fileExtension := None |}) recs); [reflexivity|].
  intros r Hr. apply extension_filter_skips_pathless.
  destruct (searchRecords_in _ _ _ _ _ _ Hrecs Hr) as (w & -> & _).
  reflexivity.
Qed.

(** ** Searches without a keyword *)

Lemma mapOutcome_neutral
  (toLowerCase : jsstring -> jsstring)
  (hostMatchCount : jsstring -> jsstring -> Outcome nat)
  (l : list DialogueRecord) :
  mapOutcome (toSearchResult toLowerCase hostMatchCount []) l
  = Returned (List.map neutralResult l).
Proof.
  induction l as [|r l IH]; simpl; [reflexivity|]. now rewrite IH.
Qed.

Lemma sortBy_neutral (l : list DialogueRecord) :
  sortBy moreRelevant (List.map neutralResult l) = List.map neutralResult l.
Proof.
  apply sortBy_unordered. intros a b Ha Hb.
  apply in_map_iff in Ha, Hb.
  destruct Ha as (ra & <- & _), Hb as (rb & <- & _). reflexivity.
Qed.

Lemma filter_all {A : Type} (f : A -> bool) (l : list A) :
  (forall x, f x = true) -> filter f l = l.
Proof.
  intros H. induction l as [|x l IH]; simpl; [reflexivity|].
  now rewrite H, IH.
Qed.

(** X14.  Without a keyword a search keeps the order of the store, newest
    first: its results are the records within the time bounds that pass
    the in-memory filter, in the order in which the store returned them,
    each with relevance 0.5 and without highlights. *)
Theorem search_without_keyword_keeps_store_order
  (toLowerCase : jsstring -> jsstring)
  (hostMatchCount : jsstring -> jsstring -> Outcome nat)
  (criteria : SearchCriteria) (d : Database) :
  orEmpty (keyword criteria) = [] ->
  search toLowerCase hostMatchCount criteria d
  = match searchRecords [] (startTime criteria) (endTime criteria) d with
    | Returned recs =>
      Returned (List.map neutralResult (filter (matchesCriteria criteria) recs))
    | Thrown e => Thrown e
    end.
Proof.
  intros Hk. unfold search. rewrite Hk.
  destruct (searchRecords _ _ _ d) as [recs|e]; [|reflexivity].
  now rewrite mapOutcome_neutral, sortBy_neutral.
Qed.

Lemma search_without_keyword_keeps_store_order_witness :
  search asciiLower Sample.hostMatchCount (Sample.criteria None None)
    (Ready [ rowOf {| id := lit "r1"; sessionId := lit "s"; timestamp := 10;
                      speaker := USER; content := lit "older";
                      recordType := DIALOGUE; filePath := None |};
             rowOf {| id := lit "r2"; sessionId := lit "s"; timestamp := 20;
                      speaker := CHAT; content := lit "newer";
                      recordType := DIALOGUE; filePath := None |} ])
  = Returned
      [ neutralResult {| id := lit "r2"; sessionId := lit "s"; timestamp := 20;
                         speaker := CHAT; content := lit "newer";
                         recordType := DIALOGUE; filePath := None |};
        neutralResult {| id := lit "r1"; sessionId := lit "s"; timestamp := 10;
                         speaker := USER; content := lit "older";
                         recordType := DIALOGUE; filePath := None |} ].
Proof.
  rewrite (search_without_keyword_keeps_store_order asciiLower
             Sample.hostMatchCount (Sample.criteria None None)).
  - vm_compute. reflexivity.
  - reflexivity.
Defined.

Lemma searchBySpeaker_ready
  (toLowerCase : jsstring -> jsstring)
  (hostMatchCount : jsstring -> jsstring -> Outcome nat)
  (sp : Speaker) (rows : list Row) :
  searchBySpeaker toLowerCase hostMatchCount sp (Ready rows)
  = Returned
      (List.map neutralResult
         (List.map recordOf
            (filter (fun w => Speaker_eqb (row_speaker w) sp)
                    (orderDesc rows)))).
Proof.
  unfold searchBySpeaker, search. simpl orEmpty.
  unfold searchRecords, withDb. simpl startTime. simpl endTime.
  rewrite (filter_all _ rows)
    by (intros w; simpl; now rewrite like_empty_keyword).
  rewrite mapOutcome_neutral, sortBy_neutral. do 2 f_equal.
  induction (orderDesc rows) as [|w l IH]; simpl; [reflexivity|].
  unfold matchesCriteria at 1. simpl.
  destruct (Speaker_eqb (row_speaker w) sp); simpl; now rewrite IH.
Qed.

Lemma searchByTimeRange_ready
  (toLowerCase : jsstring -> jsstring)
  (hostMatchCount : jsstring -> jsstring -> Outcome nat)
  (st et : Z) (rows : list Row) :
  searchByTimeRange toLowerCase hostMatchCount st et (Ready rows)
  = Returned
      (List.map neutralResult
         (List.map recordOf
            (orderDesc
               (filter (fun w => isoLeb st (row_timestamp w)
                                 && isoLeb (row_timestamp w) et) rows)))).
Proof.
  unfold searchByTimeRange, search. simpl orEmpty.
  unfold searchRecords, withDb. simpl startTime. simpl endTime.
  rewrite (filter_ext_in' _
             (fun w => isoLeb st (row_timestamp w)
                       && isoLeb (row_timestamp w) et) rows)
    by (intros w _; simpl; now rewrite like_empty_keyword).
  rewrite (filter_all (matchesCriteria _)) by (intros r; reflexivity).
  now rewrite mapOutcome_neutral, sortBy_neutral.
Qed.

Lemma Permutation_filter' {A : Type} (f : A -> bool) (l l' : list A) :
  Permutation l l' -> Permutation (filter f l) (filter f l').
Proof.
  induction 1 as [|x l l' H IH|x y l|l l' l'' H1 IH1 H2 IH2]; simpl.
  - constructor.
  - destruct (f x); [now constructor|exact IH].
  - destruct (f x), (f y); try reflexivity. apply perm_swap.
  - now transitivity (filter f l').
Qed.

Lemma StronglySorted_filter {A : Type} (R : A -> A -> Prop) (f : A -> bool)
  (l : list A) :
  StronglySorted R l -> StronglySorted R (filter f l).
Proof.
  induction 1 as [|x l Hs IH Hx]; simpl; [constructor|].
  destruct (f x); [|exact IH]. constructor; [exact IH|].
  rewrite Forall_forall in *. intros y Hy. apply filter_In in Hy.
  now apply Hx.
Qed.

Lemma map_record_neutral (l : list DialogueRecord) :
  List.map record (List.map neutralResult l) = l.
Proof. rewrite map_map. simpl. apply map_id. Qed.

Lemma neutral_results_are_neutral (l : list DialogueRecord) :
  Forall (fun x => relevance x = 5 # 10 /\ highlights x = [])
         (List.map neutralResult l).
Proof. apply Forall_map, Forall_forall. intros r _. now split. Qed.

(** X15.  [searchBySpeaker] on an open store returns the stored records of
    that speaker, each once, and no others, in descending order of the ISO
    texts of their timestamps, each with relevance 0.5 and without
    highlights. *)
Theorem searchBySpeaker_returns_the_speakers_records
  (toLowerCase : jsstring -> jsstring)
  (hostMatchCount : jsstring -> jsstring -> Outcome nat)
  (sp : Speaker) (rows : list Row) :
  exists results,
    searchBySpeaker toLowerCase hostMatchCount sp (Ready rows)
    = Returned results
    /\ Permutation (List.map record results)
         (List.map recordOf
            (filter (fun w => Speaker_eqb (row_speaker w) sp) rows))
    /\ StronglySorted (fun a b => isoLeb (timestamp b) (timestamp a) = true)
         (List.map record results)
    /\ Forall (fun x => relevance x = 5 # 10 /\ highlights x = []) results.
Proof.
  eexists. split; [apply searchBySpeaker_ready|].
  rewrite map_record_neutral. split; [|split].
  - apply Permutation_map, Permutation_filter'. apply sortBy_perm.
  - apply StronglySorted_map, StronglySorted_filter. simpl.
    apply sortBy_iso_descending.
  - apply neutral_results_are_neutral.
Qed.

(** X16.  [searchByTimeRange] on an open store returns the stored records
    the ISO texts of whose timestamps lie within the ISO texts of the two
    bounds, both included, each once, and no others, in descending order
    of those texts, each with relevance 0.5 and without highlights. *)
Theorem searchByTimeRange_returns_the_records_in_range
  (toLowerCase : jsstring -> jsstring)
  (hostMatchCount : jsstring -> jsstring -> Outcome nat)
  (st et : Z) (rows : list Row) :
  exists results,
    searchByTimeRange toLowerCase hostMatchCount st et (Ready rows)
    = Returned results
    /\ Permutation (List.map record results)
         (List.map recordOf
            (filter (fun w => isoLeb st (row_timestamp w)
                              && isoLeb (row_timestamp w) et) rows))
    /\ StronglySorted (fun a b => isoLeb (timestamp b) (timestamp a) = true)
         (List.map record results)
    /\ Forall (fun x => relevance x = 5 # 10 /\ highlights x = []) results.
Proof.
  eexists. split; [apply searchByTimeRange_ready|].
  rewrite map_record_neutral. split; [|split].
  - apply Permutation_map. apply sortBy_perm.
  - apply StronglySorted_map. simpl. apply sortBy_iso_descending.
  - apply neutral_results_are_neutral.
Qed.

(** ** Scores of matching records *)

Lemma compile_matches (p : jsstring) (pat : list Atom) (s : jsstring) :
  compile p = Some pat -> startsWith s p = true -> matchAt pat s = true.
Proof.
  revert pat s. induction p as [|c p IH]; intros pat s Hc Hs.
  - simpl in Hc. now injection Hc as <-.
  - simpl in Hc. destruct (compile p) as [atoms|]; [|discriminate].
    destruct s as [|d s]; [discriminate|]. simpl in Hs.
    apply andb_prop in Hs. destruct Hs as [Hcd Hs]. apply N.eqb_eq in Hcd.
    subst d. specialize (IH atoms s eq_refl Hs).
    destruct (c =? 46)%N eqn:E.
    + injection Hc as <-. apply N.eqb_eq in E. subst c. simpl. exact IH.
    + destruct (isSyntaxCharacter c); [discriminate|].
      injection Hc as <-. simpl. now rewrite N.eqb_refl.
Qed.

Lemma compile_nonempty (p : jsstring) (pat : list Atom) :
  compile p = Some pat -> p <> [] -> pat <> [].
Proof.
  destruct p as [|c p]; [congruence|]. simpl.
  destruct (compile p); [|discriminate].
  destruct (c =? 46)%N; [intros H _; injection H as <-; discriminate|].
  destruct (isSyntaxCharacter c); [discriminate|].
  intros H _. injection H as <-. discriminate.
Qed.

Lemma countMatches_positive (pat : list Atom) (s : jsstring) (i : nat) :
  pat <> [] -> matchAt pat (skipn i s) = true ->
  (1 <= countMatches pat 0 s)%nat.
Proof.
  intros Hp. revert i. induction s as [|c s IH]; intros i Hm.
  - rewrite skipn_nil in Hm. destruct pat; [congruence|discriminate].
  - simpl. destruct (matchAt pat (c :: s)) eqn:E; [lia|].
    destruct i as [|i]; [simpl in Hm; congruence|].
    simpl in Hm. now apply (IH i).
Qed.

(** X17.  A record in whose text the keyword occurs scores at least 0.5,
    the score of a search without keyword, and exactly 1 when its text
    begins with the keyword (for a keyword made of ordinary characters
    and of full stops). *)
Theorem matching_record_scores_high
  (toLowerCase : jsstring -> jsstring)
  (hostMatchCount : jsstring -> jsstring -> Outcome nat)
  (r : DialogueRecord) (kw : jsstring) (pat : list Atom) (i : nat) :
  kw <> [] -> toLowerCase kw <> [] ->
  compile (toLowerCase kw) = Some pat ->
  indexOf (toLowerCase (content r)) (toLowerCase kw) = Some i ->
  exists q,
    calculateRelevance toLowerCase hostMatchCount r kw = Returned q
    /\ 5 # 10 <= q /\ q <= 1 /\ (i = 0%nat -> q == 1).
Proof.
  intros Hkw Hlow Hc Hidx. unfold calculateRelevance.
  destruct kw as [|c kw]; [congruence|]. simpl negb. cbv iota.
  unfold includes, indexOfZ, matchCount. rewrite Hidx, Hc.
  eexists. split; [reflexivity|].
  destruct (indexOf_some _ _ _ Hidx) as (_ & Hm & _).
  pose proof (countMatches_positive pat _ i (compile_nonempty _ _ Hc Hlow)
                (compile_matches _ _ _ Hc Hm)) as Hn.
  set (n := countMatches pat 0 (toLowerCase (content r))) in *.
  set (len := List.length (toLowerCase (content r))).
  assert (1 <= inject_Z (Z.of_nat n)) as Hq
      by (unfold Qle; simpl; lia).
  pose proof (Q.le_max_l 0 (1 - inject_Z (Z.of_nat i)
                                / inject_Z (Z.of_nat len))) as Hp.
  split; [apply Q.min_glb; [lra|];
          set (score := Qmax 0 (1 - inject_Z (Z.of_nat i)
                                    / inject_Z (Z.of_nat len))) in *;
          clearbody score; lra|]. split; [apply Q.le_min_l|].
  intros ->. apply Q.min_l.
  assert (inject_Z (Z.of_nat 0) / inject_Z (Z.of_nat len) == 0) as Hz
      by (unfold Qdiv; simpl; apply Qmult_0_l).
  set (ratio := inject_Z (Z.of_nat 0) / inject_Z (Z.of_nat len)) in *.
  pose proof (Q.le_max_r 0 (1 - ratio)) as Hr.
  set (score := Qmax 0 (1 - ratio)) in *.
  clearbody ratio score. lra.
Qed.

Lemma matching_record_scores_high_witness :
  exists q,
    calculateRelevance asciiLower Sample.hostMatchCount
      (Sample.dialogue "r1" "Project plans") (lit "project") = Returned q
    /\ 5 # 10 <= q /\ q <= 1 /\ (0%nat = 0%nat -> q == 1).
Proof.
  apply (matching_record_scores_high asciiLower Sample.hostMatchCount
           (Sample.dialogue "r1" "Project plans") (lit "project")
           (List.map Char (lit "project")) 0).
  - vm_compute. discriminate.
  - vm_compute. discriminate.
  - vm_compute. reflexivity.
  - vm_compute. reflexivity.
Defined.

(** ** The list of highlights *)

Lemma startsWith_nil_false (p : jsstring) : p <> [] -> startsWith [] p = false.
Proof. destruct p; [congruence|reflexivity]. Qed.

Lemma indexOfFrom_some (s p : jsstring) (j k : nat) :
  p <> [] -> indexOfFrom s p j = Some k ->
  (j <= k <= List.length s)%nat
  /\ startsWith (skipn k s) p = true
  /\ forall i, (j <= i < k)%nat -> startsWith (skipn i s) p = false.
Proof.
  intros Hp. unfold indexOfFrom.
  destruct (Nat.ltb (List.length s) j) eqn:E.
  - now rewrite (startsWith_nil_false p Hp).
  - apply Nat.ltb_ge in E.
    destruct (indexOf (skipn j s) p) as [m|] eqn:Ei; [|discriminate].
    simpl. intros H. injection H as <-.
    destruct (indexOf_some _ _ _ Ei) as (Hm & Hs & Hl).
    rewrite length_skipn in Hm. rewrite skipn_skipn in Hs.
    split; [lia|]. split; [now rewrite Nat.add_comm|].
    intros i Hi. specialize (Hl (i - j)%nat). rewrite skipn_skipn in Hl.
    replace (i - j + j)%nat with i in Hl by lia. apply Hl. lia.
Qed.

Lemma indexOfFrom_none (s p : jsstring) (j : nat) :
  p <> [] -> indexOfFrom s p j = None ->
  forall i, (j <= i)%nat -> startsWith (skipn i s) p = false.
Proof.
  intros Hp. unfold indexOfFrom.
  destruct (Nat.ltb (List.length s) j) eqn:E.
  - apply Nat.ltb_lt in E. intros _ i Hi.
    rewrite skipn_all2 by lia. now apply startsWith_nil_false.
  - destruct (indexOf (skipn j s) p) as [m|] eqn:Ei; [discriminate|].
    intros _ i Hi. pose proof (indexOf_none _ _ Ei (i - j)%nat) as H.
    rewrite skipn_skipn in H. now replace (i - j + j)%nat with i in H by lia.
Qed.

Lemma filter_seq_none (f : nat -> bool) (j n : nat) :
  (forall i, (j <= i < j + n)%nat -> f i = false) ->
  filter f (seq j n) = [].
Proof.
  revert j. induction n as [|n IH]; intros j H; [reflexivity|]. simpl.
  rewrite (H j) by lia. apply IH. intros i Hi. apply H. lia.
Qed.

Lemma filter_seq_first (f : nat -> bool) (j n k : nat) :
  (j <= k < j + n)%nat -> f k = true ->
  (forall i, (j <= i < k)%nat -> f i = false) ->
  filter f (seq j n) = k :: filter f (seq (S k) (j + n - S k)).
Proof.
  intros Hk Hf Hnone.
  replace n with ((k - j) + S (j + n - S k))%nat at 1 by lia.
  rewrite seq_app, filter_app.
  rewrite filter_seq_none by (intros i Hi; apply Hnone; lia).
  replace (j + (k - j))%nat with k by lia. simpl. now rewrite Hf.
Qed.

Lemma highlightLoop_exact (content kw s p : jsstring) :
  p <> [] ->
  forall (fuel j : nat) (acc : list jsstring),
    (List.length s + 2 - j <= fuel)%nat -> (j <= S (List.length s))%nat ->
    highlightLoop fuel content kw s p (indexOfFrom s p j) acc
    = acc ++ List.map (highlightAt content kw)
                      (filter (fun i => startsWith (skipn i s) p)
                              (seq j (S (List.length s) - j))).
Proof.
  intros Hp. induction fuel as [|fuel IH]; intros j acc Hf Hj; [lia|].
  cbn [highlightLoop]. destruct (indexOfFrom s p j) as [k|] eqn:E.
  - destruct (indexOfFrom_some _ _ _ _ Hp E) as (Hk & Hm & Hnone).
    rewrite Nat.add_1_r, IH by lia.
    rewrite (filter_seq_first _ j _ k) by (auto; lia).
    cbn [List.map]. rewrite <- app_assoc. cbn [app].
    do 5 f_equal. lia.
  - rewrite filter_seq_none; [now rewrite app_nil_r|].
    intros i Hi. apply (indexOfFrom_none _ _ _ Hp E). lia.
Qed.

Lemma spec_window_length (text : jsstring) (klen i : nat) :
  (List.length (spec_window text klen i) <= klen + 40)%nat.
Proof.
  unfold spec_window. rewrite length_firstn, length_skipn. lia.
Qed.

(** X18.  For a non-empty keyword the highlights are exactly the excerpts
    of the occurrences of the (lower-cased) keyword in the (lower-cased)
    text, one for each index at which it occurs, in ascending order of
    the indices; no excerpt is longer than the keyword plus 40
    characters. *)
Theorem highlights_are_the_occurrence_windows
  (toLowerCase : jsstring -> jsstring) (content kw : jsstring) :
  kw <> [] -> toLowerCase kw <> [] ->
  extractHighlights toLowerCase content kw
  = List.map (spec_window content (List.length kw))
             (occurrencePositions (toLowerCase kw) (toLowerCase content))
  /\ Forall (fun h => (List.length h <= List.length kw + 40)%nat)
            (extractHighlights toLowerCase content kw).
Proof.
  intros Hkw Hlow.
  assert (extractHighlights toLowerCase content kw
          = List.map (spec_window content (List.length kw))
                     (occurrencePositions (toLowerCase kw)
                                          (toLowerCase content))) as Heq.
  { unfold extractHighlights, occurrencePositions.
    destruct kw as [|c kw]; [congruence|]. simpl negb. cbv iota.
    rewrite <- indexOfFrom_zero.
    rewrite (highlightLoop_exact _ _ _ _ Hlow) by lia.
    rewrite Nat.sub_0_r. simpl app. apply map_ext.
    intros i. apply highlightAt_window. }
  split; [exact Heq|]. rewrite Heq. apply Forall_map, Forall_forall.
  intros i _. apply spec_window_length.
Qed.

Lemma highlights_are_the_occurrence_windows_witness :
  extractHighlights asciiLower (lit "abcabc abc") (lit "ABC")
  = List.map (spec_window (lit "abcabc abc") (List.length (lit "ABC")))
             (occurrencePositions (asciiLower (lit "ABC"))
                                  (asciiLower (lit "abcabc abc")))
  /\ Forall (fun h => (List.length h <= List.length (lit "ABC") + 40)%nat)
            (extractHighlights asciiLower (lit "abcabc abc") (lit "ABC")).
Proof.
  apply (highlights_are_the_occurrence_windows asciiLower
           (lit "abcabc abc") (lit "ABC")).
  - vm_compute. discriminate.
  - vm_compute. discriminate.
Defined.

Example occurrence_positions_of_abc :
  occurrencePositions (lit "abc") (lit "abcabc abc") = [0; 3; 7]%nat.
Proof. vm_compute. reflexivity. Qed.

(** ** The listener and its store *)

Lemma keeps_ret (T : World -> World -> Prop) :
  (forall w, T w w) -> Keeps T (ret tt).
Proof. intros Hrefl w. apply Hrefl. Qed.

Lemma keeps_seq (T : World -> World -> Prop) (m k : M unit) :
  (forall a b c, T a b -> T b c -> T a c) ->
  Keeps T m -> Keeps T k -> Keeps T (m ;;; k).
Proof.
  intros Htrans Hm Hk w. unfold bind. specialize (Hm w).
  destruct (m w) as [[u|e] w1]; simpl in *; [|exact Hm].
  eapply Htrans; [exact Hm|apply Hk].
Qed.

Lemma keeps_forEach {A : Type} (T : World -> World -> Prop)
  (f : A -> M unit) (l : list A) :
  (forall w, T w w) -> (forall a b c, T a b -> T b c -> T a c) ->
  (forall x, Keeps T (f x)) -> Keeps T (forEach f l).
Proof.
  intros Hrefl Htrans Hf. induction l as [|x l IH]; simpl.
  - now apply keeps_ret.
  - apply keeps_seq; auto.
Qed.

(** Whatever every [recordDialogue] keeps, every handler keeps. *)
Lemma keeps_handleEvent
  (T : World -> World -> Prop)
  (toLowerCase : jsstring -> jsstring) (recordIdAt : nat -> jsstring)
  (dateAt : nat -> Z) :
  (forall w, T w w) -> (forall a b c, T a b -> T b c -> T a c) ->
  (forall sp c, Keeps T (recordDialogue recordIdAt dateAt sp c)) ->
  forall ev, Keeps T (handleEvent toLowerCase recordIdAt dateAt ev).
Proof.
  intros Hrefl Htrans Hrec.
  assert (forall sp c, Keeps T (recordIfReal recordIdAt dateAt sp c)) as Hif.
  { intros sp [c|]; simpl; [|now apply keeps_ret].
    destruct (truthy c && isRealChatContent c); [apply Hrec|now apply keeps_ret]. }
  assert (forall line,
             Keeps T (analyzeOutputLine toLowerCase recordIdAt dateAt line))
    as Hline.
  { intros line. unfold analyzeOutputLine.
    destruct (isTerminalOrSystemMessage toLowerCase line);
      [now apply keeps_ret|].
    destruct (_ || _); [apply Hif|].
    destruct (_ || _); [apply Hif|].
    destruct (_ || _); [apply Hif|].
    destruct (isPureDialogueContent line); [|now apply keeps_ret].
    destruct (determineSpeakerFromContext line); [|now apply keeps_ret].
    destruct (isRealChatContent line); [apply Hrec|now apply keeps_ret]. }
  assert (forall verb b,
             Keeps T (breakpointRecord recordIdAt dateAt verb b)) as Hb.
  { intros verb [fsPath line|functionName|]; simpl;
      [apply Hrec|apply Hrec|now apply keeps_ret]. }
  intros ev. destruct ev; simpl; try apply Hrec.
  - unfold processOutputContent. apply keeps_forEach; auto. intros line.
    destruct (truthy (trim line)); [apply Hline|now apply keeps_ret].
  - destruct isInteractedWith; [apply Hrec|now apply keeps_ret].
  - destruct (truthy output); [apply Hrec|now apply keeps_ret].
  - apply keeps_seq; auto; apply keeps_forEach; auto.
Qed.

Lemma extends_refl (R : jsstring -> Row -> Prop) (w : World) : Extends R w w.
Proof.
  split; [reflexivity|]. exists []. split; [now rewrite app_nil_r|constructor].
Qed.

Lemma extends_trans (R : jsstring -> Row -> Prop) (a b c : World) :
  Extends R a b -> Extends R b c -> Extends R a c.
Proof.
  intros (Hs1 & l1 & H1 & F1) (Hs2 & l2 & H2 & F2). split; [congruence|].
  exists (l1 ++ l2). split.
  - now rewrite H2, H1, app_assoc.
  - apply Forall_app. split; [exact F1|]. now rewrite <- Hs1.
Qed.

Lemma recordDialogue_session
  (recordIdAt : nat -> jsstring) (dateAt : nat -> Z)
  (sp : Speaker) (c : jsstring) (w : World) :
  currentSessionId (snd (recordDialogue recordIdAt dateAt sp c w))
  = currentSessionId w.
Proof.
  unfold recordDialogue, bind, tryCatch, generateRecordId, getSessionId,
    newDate, awaitSaveRecord, consoleLog, consoleError.
  cbn [db currentSessionId console saveCalls tick].
  destruct (saveRecord _ (db w)) as [[u|e] d]; reflexivity.
Qed.

Lemma recordDialogue_extends
  (recordIdAt : nat -> jsstring) (dateAt : nat -> Z)
  (sp : Speaker) (c : jsstring) :
  Keeps (Extends dialogueRowOf) (recordDialogue recordIdAt dateAt sp c).
Proof.
  intros w. split; [apply recordDialogue_session|].
  destruct (recordDialogue_run recordIdAt dateAt sp c w)
    as (w' & Hrun & _ & Hdb).
  rewrite Hrun. simpl snd.
  match type of Hdb with
  | match saveRecord ?r _ with _ => _ end =>
    destruct (saveRecord r (db w)) as [[u|e] d] eqn:E;
      destruct Hdb as [Hd _]; [exists [rowOf r]|exists []]
  end.
  - split; [rewrite Hd; exact (saveRecord_returned _ _ _ _ E)|].
    constructor; [|constructor]. split; reflexivity.
  - split; [now rewrite Hd, app_nil_r|constructor].
Qed.

(** X19.  The listener only appends.  Whatever event it handles, the
    rows stored before are still there, in their order, followed by the
    rows of this event; each of these is a DIALOGUE row of the listener's
    session, and the session id of the listener does not change. *)
Theorem listener_only_appends_to_its_session
  (toLowerCase : jsstring -> jsstring) (recordIdAt : nat -> jsstring)
  (dateAt : nat -> Z) (ev : HostEvent) (w : World) :
  let w' := snd (handleEvent toLowerCase recordIdAt dateAt ev w) in
  currentSessionId w' = currentSessionId w
  /\ exists added,
       storedRows (db w') = storedRows (db w) ++ added
       /\ Forall (fun row => row_session_id row = currentSessionId w
                             /\ row_record_type row = DIALOGUE) added.
Proof.
  intros w'.
  destruct (keeps_handleEvent (Extends dialogueRowOf) toLowerCase recordIdAt
              dateAt (extends_refl _) (extends_trans _)
              (recordDialogue_extends recordIdAt dateAt) ev w)
    as (Hsession & added & Hrows & Hadded).
  split; [exact Hsession|]. exists added. split; [exact Hrows|].
  exact Hadded.
Qed.

Lemma recordDialogue_uniqueIds
  (recordIdAt : nat -> jsstring) (dateAt : nat -> Z)
  (sp : Speaker) (c : jsstring) :
  Keeps (fun w w' => uniqueIds w -> uniqueIds w')
        (recordDialogue recordIdAt dateAt sp c).
Proof.
  intros w Hu. unfold uniqueIds in *.
  destruct (recordDialogue_run recordIdAt dateAt sp c w)
    as (w' & Hrun & _ & Hdb).
  rewrite Hrun. simpl snd.
  match type of Hdb with
  | match saveRecord ?r _ with _ => _ end =>
    pose proof (saveRecord_nodup r (db w) Hu) as Hnd;
      destruct (saveRecord r (db w)) as [[u|e] d] eqn:E;
      destruct Hdb as [Hd _]
  end.
  - now rewrite Hd.
  - now rewrite Hd.
Qed.

(** X20.  The ids of the stored rows stay pairwise different through
    every event the listener handles, whatever ids the generator yields:
    a record whose generated id is already stored is not stored. *)
Theorem listener_keeps_ids_unique
  (toLowerCase : jsstring -> jsstring) (recordIdAt : nat -> jsstring)
  (dateAt : nat -> Z) (ev : HostEvent) (w : World) :
  NoDup (List.map row_id (storedRows (db w))) ->
  NoDup (List.map row_id
           (storedRows
              (db (snd (handleEvent toLowerCase recordIdAt dateAt ev w))))).
Proof.
  apply (keeps_handleEvent (fun w w' => uniqueIds w -> uniqueIds w')
           toLowerCase recordIdAt dateAt).
  - auto.
  - auto.
  - apply recordDialogue_uniqueIds.
Qed.

Lemma listener_keeps_ids_unique_witness :
  NoDup (List.map row_id
           (storedRows
              (db (snd (handleEvent asciiLower (fun _ => lit "same-id")
                          Sample.dateAt
                          (BreakpointsChanged
                             [FunctionBreakpoint (lit "main");
                              FunctionBreakpoint (lit "helper")] [])
                          Sample.emptyWorld))))).
Proof.
  apply (listener_keeps_ids_unique asciiLower (fun _ => lit "same-id")
           Sample.dateAt
           (BreakpointsChanged
              [FunctionBreakpoint (lit "main");
               FunctionBreakpoint (lit "helper")] [])
           Sample.emptyWorld).
  simpl. constructor.
Defined.

(** ** What the classifier records *)

Lemma analyzeOutputLine_classify
  (toLowerCase : jsstring -> jsstring) (recordIdAt : nat -> jsstring)
  (dateAt : nat -> Z) (line : jsstring) (w : World) :
  analyzeOutputLine toLowerCase recordIdAt dateAt line w
  = match classify toLowerCase line with
    | Some (sp, c) => recordDialogue recordIdAt dateAt sp c w
    | None => (Returned tt, w)
    end.
Proof.
  assert (forall sp c,
             recordIfReal recordIdAt dateAt sp c w
             = match gated sp c with
               | Some (sp', c') => recordDialogue recordIdAt dateAt sp' c' w
               | None => (Returned tt, w)
               end) as Hif.
  { intros sp [c|]; simpl; [|reflexivity].
    destruct (truthy c && isRealChatContent c); reflexivity. }
  unfold analyzeOutputLine, classify, hasBuilderMarker, hasChatMarker,
    hasUserMarker.
  destruct (isTerminalOrSystemMessage toLowerCase line); [reflexivity|].
  destruct (_ || _); [apply Hif|].
  destruct (_ || _); [apply Hif|].
  destruct (_ || _); [apply Hif|].
  destruct (isPureDialogueContent line); [|reflexivity].
  destruct (determineSpeakerFromContext line); [|reflexivity].
  destruct (isRealChatContent line); reflexivity.
Qed.

Lemma classify_passes_gate
  (toLowerCase : jsstring -> jsstring) (line : jsstring)
  (sp : Speaker) (c : jsstring) :
  classify toLowerCase line = Some (sp, c) -> isRealChatContent c = true.
Proof.
  assert (forall s o, gated s o = Some (sp, c) -> isRealChatContent c = true)
    as Hg.
  { intros s [x|]; simpl; [|discriminate].
    destruct (truthy x); simpl; [|discriminate].
    destruct (isRealChatContent x) eqn:E; [|discriminate].
    intros H. injection H as _ <-. exact E. }
  unfold classify.
  destruct (isTerminalOrSystemMessage toLowerCase line); [discriminate|].
  destruct (hasBuilderMarker line); [apply Hg|].
  destruct (hasChatMarker line); [apply Hg|].
  destruct (hasUserMarker line); [apply Hg|].
  destruct (isPureDialogueContent line); [|discriminate].
  destruct (determineSpeakerFromContext line); [|discriminate].
  destruct (isRealChatContent line) eqn:E; [|discriminate].
  intros H. injection H as _ <-. exact E.
Qed.

Lemma app_one_not_self {A : Type} (l : list A) (x : A) : l ++ [x] <> l.
Proof.
  intros H. apply (f_equal (@List.length A)) in H.
  rewrite length_app in H. simpl in H. lia.
Qed.

(** A run of the classifier that appends one row made the call that
    [classify] names, and the row is that of the record built. *)
Lemma analyzeOutputLine_appended
  (toLowerCase : jsstring -> jsstring) (recordIdAt : nat -> jsstring)
  (dateAt : nat -> Z) (line : jsstring) (w : World) (row : Row) :
  storedRows (db (snd (analyzeOutputLine toLowerCase recordIdAt dateAt line w)))
  = storedRows (db w) ++ [row] ->
  exists sp c,
    classify toLowerCase line = Some (sp, c)
    /\ row = {| row_id := recordIdAt (tick w);
                row_session_id := currentSessionId w;
                row_timestamp := dateAt (S (tick w));
                row_speaker := sp; row_content := c;
                row_record_type := DIALOGUE |}.
Proof.
  rewrite analyzeOutputLine_classify.
  destruct (classify toLowerCase line) as [[sp c]|];
    [|simpl; intros H; symmetry in H; now apply app_one_not_self in H].
  intros H. exists sp, c. split; [reflexivity|].
  destruct (recordDialogue_run recordIdAt dateAt sp c w)
    as (w' & Hrun & _ & Hdb).
  rewrite Hrun in H. simpl snd in H.
  match type of Hdb with
  | match saveRecord ?r _ with _ => _ end =>
    destruct (saveRecord r (db w)) as [[u|e] d] eqn:E;
      destruct Hdb as [Hd _]
  end.
  - rewrite Hd, (saveRecord_returned _ _ _ _ E) in H.
    apply app_inv_head in H. now injection H as <-.
  - rewrite Hd in H. symmetry in H. now apply app_one_not_self in H.
Qed.

Lemma safe_analyzeOutputLine_gate
  (toLowerCase : jsstring -> jsstring) (recordIdAt : nat -> jsstring)
  (dateAt : nat -> Z) (line : jsstring) :
  Safe (fun c => isRealChatContent c = true)
       (analyzeOutputLine toLowerCase recordIdAt dateAt line).
Proof.
  intros w. rewrite analyzeOutputLine_classify.
  destruct (classify toLowerCase line) as [[sp c]|] eqn:E.
  - apply safe_recordDialogue. exact (classify_passes_gate _ _ _ _ E).
  - apply safe_ret.
Qed.

(** X21.  Every record that the line classifier appends passes the whole
    content gate, not only its length bounds: its text is not a bare
    number, and it does not begin with the words with which the records
    of terminal and debug-session events begin. *)
Theorem classified_records_pass_the_gate
  (toLowerCase : jsstring -> jsstring) (recordIdAt : nat -> jsstring)
  (dateAt : nat -> Z) (text : jsstring) (w : World) :
  exists added,
    storedRows
      (db (snd (processOutputContent toLowerCase recordIdAt dateAt text w)))
    = storedRows (db w) ++ added
    /\ Forall (fun row =>
                 isRealChatContent (row_content row) = true
                 /\ pureNumber (row_content row) = false
                 /\ startsWith (row_content row) (lit "终端已") = false
                 /\ startsWith (row_content row) (lit "调试会话") = false)
              added.
Proof.
  assert (Safe (fun c => isRealChatContent c = true)
               (processOutputContent toLowerCase recordIdAt dateAt text))
    as Hsafe.
  { unfold processOutputContent. apply safe_forEach. intros line.
    destruct (truthy (trim line));
      [apply safe_analyzeOutputLine_gate|apply safe_ret]. }
  destruct (Hsafe w) as (_ & added & Hrows & Hall).
  exists added. split; [exact Hrows|].
  eapply Forall_impl; [|exact Hall]. intros row Hg. simpl in Hg.
  split; [exact Hg|]. unfold isRealChatContent in Hg.
  destruct (_ || _); [discriminate|]. apply negb_true_iff in Hg.
  unfold systemPatterns in Hg. simpl existsb in Hg.
  repeat (apply orb_false_iff in Hg; destruct Hg as [? Hg]).
  auto.
Qed.

(** X22.  The role of a recorded line follows its marker, a builder marker
    before a chat marker before a user marker: when the classifier
    appends a row for a line, the line is not noise, and the row is given
    to BUILDER when the line has a builder marker, else to CHAT when it
    has a chat marker, else to USER when it has a user marker. *)
Theorem recorded_role_follows_marker
  (toLowerCase : jsstring -> jsstring) (recordIdAt : nat -> jsstring)
  (dateAt : nat -> Z) (line : jsstring) (w : World) (row : Row) :
  storedRows (db (snd (analyzeOutputLine toLowerCase recordIdAt dateAt line w)))
  = storedRows (db w) ++ [row] ->
  isTerminalOrSystemMessage toLowerCase line = false
  /\ (hasBuilderMarker line = true -> row_speaker row = BUILDER)
  /\ (hasBuilderMarker line = false -> hasChatMarker line = true ->
      row_speaker row = CHAT)
  /\ (hasBuilderMarker line = false -> hasChatMarker line = false ->
      hasUserMarker line = true -> row_speaker row = USER).
Proof.
  intros H.
  destruct (analyzeOutputLine_appended _ _ _ _ _ _ H) as (sp & c & Hc & ->).
  simpl row_speaker. unfold classify in Hc.
  assert (forall s o, gated s o = Some (sp, c) -> sp = s) as Hg.
  { intros s [x|]; simpl; [|discriminate].
    destruct (truthy x && isRealChatContent x); [|discriminate].
    intros E. now injection E as <- _. }
  destruct (isTerminalOrSystemMessage toLowerCase line); [discriminate|].
  split; [reflexivity|].
  destruct (hasBuilderMarker line).
  - repeat split; try discriminate. intros _. exact (Hg _ _ Hc).
  - destruct (hasChatMarker line).
    + repeat split; try discriminate. intros _ _. exact (Hg _ _ Hc).
    + destruct (hasUserMarker line).
      * repeat split; try discriminate. intros _ _ _. exact (Hg _ _ Hc).
      * repeat split; discriminate.
Qed.

Lemma recorded_role_follows_marker_witness :
  isTerminalOrSystemMessage asciiLower
    (lit "[Chat] here is what [User] wrote before") = false
  /\ (hasBuilderMarker (lit "[Chat] here is what [User] wrote before") = true ->
      row_speaker
        {| row_id := Sample.recordIdAt 0; row_session_id := lit "session_1";
           row_timestamp := Sample.dateAt 1; row_speaker := CHAT;
           row_content := lit "here is what [User] wrote before";
           row_record_type := DIALOGUE |} = BUILDER)
  /\ (hasBuilderMarker (lit "[Chat] here is what [User] wrote before") = false ->
      hasChatMarker (lit "[Chat] here is what [User] wrote before") = true ->
      row_speaker
        {| row_id := Sample.recordIdAt 0; row_session_id := lit "session_1";
           row_timestamp := Sample.dateAt 1; row_speaker := CHAT;
           row_content := lit "here is what [User] wrote before";
           row_record_type := DIALOGUE |} = CHAT)
  /\ (hasBuilderMarker (lit "[Chat] here is what [User] wrote before") = false ->
      hasChatMarker (lit "[Chat] here is what [User] wrote before") = false ->
      hasUserMarker (lit "[Chat] here is what [User] wrote before") = true ->
      row_speaker
        {| row_id := Sample.recordIdAt 0; row_session_id := lit "session_1";
           row_timestamp := Sample.dateAt 1; row_speaker := CHAT;
           row_content := lit "here is what [User] wrote before";
           row_record_type := DIALOGUE |} = USER).
Proof.
  apply (recorded_role_follows_marker asciiLower Sample.recordIdAt
           Sample.dateAt (lit "[Chat] here is what [User] wrote before")
           Sample.emptyWorld).
  vm_compute. reflexivity.
Defined.

(** X23.  The classifier does not deduplicate.  When a line has been
    recorded and is classified again, and the id generated for it is not
    yet stored, a second row is appended with the same speaker and the
    same text under a different id. *)
Theorem same_line_is_recorded_again
  (toLowerCase : jsstring -> jsstring) (recordIdAt : nat -> jsstring)
  (dateAt : nat -> Z) (line : jsstring) (w : World) (row : Row) :
  let w1 := snd (analyzeOutputLine toLowerCase recordIdAt dateAt line w) in
  storedRows (db w1) = storedRows (db w) ++ [row] ->
  ~ In (recordIdAt (tick w1)) (List.map row_id (storedRows (db w1))) ->
  exists row',
    storedRows
      (db (snd (analyzeOutputLine toLowerCase recordIdAt dateAt line w1)))
    = storedRows (db w1) ++ [row']
    /\ row_speaker row' = row_speaker row
    /\ row_content row' = row_content row
    /\ row_id row' <> row_id row.
Proof.
  intros w1 H Hfresh.
  destruct (analyzeOutputLine_appended _ _ _ _ _ _ H) as (sp & c & Hc & Hrow).
  rewrite (analyzeOutputLine_classify _ _ _ line w1), Hc.
  destruct (recordDialogue_run recordIdAt dateAt sp c w1)
    as (w2 & Hrun & _ & Hdb).
  rewrite Hrun. simpl snd.
  destruct (db w1) as [rows1|e|e|] eqn:Ed;
    try (simpl in H; now destruct (storedRows (db w))).
  simpl storedRows in *. simpl saveRecord in Hdb.
  destruct (existsb _ rows1) eqn:Ex;
    [apply existsb_row_id in Ex; contradiction|].
  destruct Hdb as [Hd _]. rewrite Hd. simpl storedRows.
  eexists. split; [reflexivity|]. subst row. simpl. repeat split.
  intros Hid. apply Hfresh. rewrite H, map_app, Hid. simpl.
  apply in_or_app. right. now left.
Qed.

Lemma same_line_is_recorded_again_witness :
  exists row',
    storedRows
      (db (snd (analyzeOutputLine asciiLower Sample.recordIdAt Sample.dateAt
                  (lit "[User] 这是一个很长的用户消息内容哦哦哦")
                  (snd (analyzeOutputLine asciiLower Sample.recordIdAt
                          Sample.dateAt
                          (lit "[User] 这是一个很长的用户消息内容哦哦哦")
                          Sample.emptyWorld)))))
    = storedRows
        (db (snd (analyzeOutputLine asciiLower Sample.recordIdAt
                    Sample.dateAt
                    (lit "[User] 这是一个很长的用户消息内容哦哦哦")
                    Sample.emptyWorld)))
      ++ [row']
    /\ row_speaker row'
       = row_speaker
           {| row_id := Sample.recordIdAt 0; row_session_id := lit "session_1";
              row_timestamp := Sample.dateAt 1; row_speaker := USER;
              row_content := lit "这是一个很长的用户消息内容哦哦哦";
              row_record_type := DIALOGUE |}
    /\ row_content row'
       = row_content
           {| row_id := Sample.recordIdAt 0; row_session_id := lit "session_1";
              row_timestamp := Sample.dateAt 1; row_speaker := USER;
              row_content := lit "这是一个很长的用户消息内容哦哦哦";
              row_record_type := DIALOGUE |}
    /\ row_id row'
       <> row_id
            {| row_id := Sample.recordIdAt 0; row_session_id := lit "session_1";
               row_timestamp := Sample.dateAt 1; row_speaker := USER;
               row_content := lit "这是一个很长的用户消息内容哦哦哦";
               row_record_type := DIALOGUE |}.
Proof.
  apply (same_line_is_recorded_again asciiLower Sample.recordIdAt
           Sample.dateAt (lit "[User] 这是一个很长的用户消息内容哦哦哦")
           Sample.emptyWorld).
  - vm_compute. reflexivity.
  - vm_compute. intros [H|[]]. discriminate H.
Defined.

(** X24.  A builder marker is never recorded.  For a case mapping under
    which the lower-cased form of a line that holds "Builder" holds the
    lower-cased noise keyword "build", every line with a builder marker
    ([[Builder]] anywhere, or [Builder:] at its start) is dropped as
    noise: nothing is stored, logged or attempted. *)
Theorem builder_marker_is_never_recorded
  (toLowerCase : jsstring -> jsstring) (recordIdAt : nat -> jsstring)
  (dateAt : nat -> Z) (line : jsstring) (w : World) :
  (forall pre post,
      Occurs (toLowerCase (lit "build"))
             (toLowerCase (pre ++ lit "Builder" ++ post))) ->
  hasBuilderMarker line = true ->
  analyzeOutputLine toLowerCase recordIdAt dateAt line w = (Returned tt, w).
Proof.
  intros Hcase Hm.
  assert (Occurs (lit "Builder") line) as (pre & post & ->).
  { unfold hasBuilderMarker in Hm. apply orb_prop in Hm.
    destruct Hm as [Hm|Hm].
    - apply includes_occurs in Hm. destruct Hm as (pre & post & ->).
      exists (pre ++ lit "["), (lit "]" ++ post).
      rewrite <- !app_assoc. reflexivity.
    - apply startsWith_inv in Hm. destruct Hm as (t & ->).
      exists [], (lit ":" ++ t). reflexivity. }
  unfold analyzeOutputLine.
  assert (isTerminalOrSystemMessage toLowerCase
            (pre ++ lit "Builder" ++ post) = true) as ->.
  { unfold isTerminalOrSystemMessage. apply existsb_exists.
    exists (lit "build"). split.
    - vm_compute. do 12 right. left. reflexivity.
    - apply includes_occurs. apply Hcase. }
  reflexivity.
Qed.

Lemma builder_marker_is_never_recorded_witness :
  analyzeOutputLine asciiLower Sample.recordIdAt Sample.dateAt
    (lit "[Builder] 我已经为您写好了这个函数的全部内容") Sample.emptyWorld
  = (Returned tt, Sample.emptyWorld).
Proof.
  apply (builder_marker_is_never_recorded asciiLower Sample.recordIdAt
           Sample.dateAt (lit "[Builder] 我已经为您写好了这个函数的全部内容")
           Sample.emptyWorld).
  - intros pre post. exists (asciiLower pre), (lit "er" ++ asciiLower post).
    rewrite !asciiLower_app. f_equal.
  - vm_compute. reflexivity.
Defined.

(** X25.  What the listener records can be read back: after
    [recordDialogue] of a well-formed text in a session of well-formed
    id, on an open store in which the generated id, well-formed too, is
    not yet stored, the records of the listener's session hold the
    record, with the speaker and the text given. *)
Theorem recorded_dialogue_is_retrievable
  (recordIdAt : nat -> jsstring) (dateAt : nat -> Z)
  (sp : Speaker) (c : jsstring) (w : World) (rows : list Row) :
  wellFormed (recordIdAt (tick w)) = true ->
  wellFormed (currentSessionId w) = true ->
  wellFormed c = true ->
  db w = Ready rows ->
  ~ In (recordIdAt (tick w)) (List.map row_id rows) ->
  exists recs,
    getRecordsBySession (currentSessionId w)
      (db (snd (recordDialogue recordIdAt dateAt sp c w))) = Returned recs
    /\ In {| id := recordIdAt (tick w); sessionId := currentSessionId w;
             timestamp := dateAt (S (tick w)); speaker := sp; content := c;
             recordType := DIALOGUE; filePath := None |} recs.
Proof.
  intros _ _ _ Hdb Hfresh.
  destruct (recordDialogue_run recordIdAt dateAt sp c w)
    as (w' & Hrun & _ & Hsave).
  rewrite Hrun. simpl snd. rewrite Hdb in Hsave. simpl saveRecord in Hsave.
  destruct (existsb _ rows) eqn:Ex;
    [apply existsb_row_id in Ex; contradiction|].
  destruct Hsave as [-> _]. unfold getRecordsBySession, withDb.
  eexists. split; [reflexivity|].
  apply in_map_iff.
  exists {| row_id := recordIdAt (tick w);
            row_session_id := currentSessionId w;
            row_timestamp := dateAt (S (tick w)); row_speaker := sp;
            row_content := c; row_record_type := DIALOGUE |}.
  split; [reflexivity|]. apply in_sortBy, filter_In. split.
  - apply in_or_app. right. now left.
  - simpl. apply eqb_refl.
Qed.

Lemma recorded_dialogue_is_retrievable_witness :
  exists recs,
    getRecordsBySession (currentSessionId Sample.emptyWorld)
      (db (snd (recordDialogue Sample.recordIdAt Sample.dateAt CHAT
                  (lit "a short answer") Sample.emptyWorld)))
    = Returned recs
    /\ In {| id := Sample.recordIdAt (tick Sample.emptyWorld);
             sessionId := currentSessionId Sample.emptyWorld;
             timestamp := Sample.dateAt (S (tick Sample.emptyWorld));
             speaker := CHAT; content := lit "a short answer";
             recordType := DIALOGUE; filePath := None |} recs.
Proof.
  apply (recorded_dialogue_is_retrievable Sample.recordIdAt Sample.dateAt
           CHAT (lit "a short answer") Sample.emptyWorld []).
  - vm_compute. reflexivity.
  - vm_compute. reflexivity.
  - vm_compute. reflexivity.
  - reflexivity.
  - intros [].
Defined.

(** ** Marker content *)

Lemma dropWhile_head (f : N -> bool) (s : jsstring) (c : N) (t : jsstring) :
  dropWhile f s = c :: t -> f c = false.
Proof.
  induction s as [|d s IH]; simpl; [discriminate|].
  destruct (f d) eqn:E; [exact IH|]. intros H. now injection H as <- _.
Qed.

Lemma dropWhile_suffix (f : N -> bool) (s : jsstring) :
  exists pre, s = pre ++ dropWhile f s.
Proof.
  induction s as [|d s (pre & IH)]; simpl; [now exists []|].
  destruct (f d); [|now exists []]. exists (d :: pre). simpl. now f_equal.
Qed.

(** A trimmed string neither begins nor ends with white space. *)
Lemma trim_edges (s : jsstring) :
  (forall c t, trim s = c :: t -> isWhiteSpace c = false)
  /\ (forall c t, trim s = t ++ [c] -> isWhiteSpace c = false).
Proof.
  unfold trim. set (body := dropWhile isWhiteSpace s).
  set (tail := dropWhile isWhiteSpace (rev body)). split.
  - intros c t H.
    destruct (dropWhile_suffix isWhiteSpace (rev body)) as (pre & Hpre).
    fold tail in Hpre. apply (f_equal (@rev N)) in Hpre.
    rewrite rev_involutive, rev_app_distr, H in Hpre. simpl in Hpre.
    exact (dropWhile_head isWhiteSpace s c _ Hpre).
  - intros c t H. apply (f_equal (@rev N)) in H.
    rewrite rev_involutive, rev_app_distr in H. simpl in H.
    exact (dropWhile_head isWhiteSpace (rev body) c _ H).
Qed.

Lemma substring_to_end (s : jsstring) (a : nat) :
  (a <= List.length s)%nat -> substring s a (List.length s) = skipn a s.
Proof.
  intros Ha. unfold substring. rewrite Nat.min_l, Nat.max_r by exact Ha.
  apply firstn_all2. rewrite length_skipn. lia.
Qed.

(** X27.  [extractContent] finds no content exactly when none of the
    markers occurs in the line.  When it finds one, the content is the
    text that follows the first occurrence of the first marker of the
    list that occurs in the line, with the white space at both ends
    removed. *)
Theorem extractContent_takes_text_after_marker
  (line : jsstring) (markers : list jsstring) :
  (extractContent line markers = None
   <-> forall m, In m markers -> ~ Occurs m line)
  /\ (forall c,
         extractContent line markers = Some c ->
         (exists before m after pre post,
             markers = before ++ m :: after
             /\ (forall m', In m' before -> ~ Occurs m' line)
             /\ line = pre ++ m ++ post
             /\ indexOf line m = Some (List.length pre)
             /\ c = trim post)
         /\ (forall x t, c = x :: t -> isWhiteSpace x = false)
         /\ (forall x t, c = t ++ [x] -> isWhiteSpace x = false)).
Proof.
  induction markers as [|m markers [IHnone IHsome]]; simpl.
  - split; [split; [intros _ m []|reflexivity]|discriminate].
  - destruct (indexOf line m) as [i|] eqn:E.
    + split.
      * split; [discriminate|]. intros H. exfalso.
        apply (H m (or_introl eq_refl)). apply includes_occurs.
        unfold includes. now rewrite E.
      * intros c H. injection H as <-.
        destruct (indexOf_some _ _ _ E) as (Hi & Hm & _).
        destruct (startsWith_inv _ _ Hm) as (post & Hpost).
        assert (line = firstn i line ++ m ++ post) as Hline
            by (rewrite <- Hpost; symmetry; apply firstn_skipn).
        assert (List.length (firstn i line) = i) as Hlen
            by (rewrite length_firstn; lia).
        assert (List.length line
                = (i + List.length m + List.length post)%nat) as Hl.
        { apply (f_equal (@List.length N)) in Hline.
          rewrite !length_app, Hlen in Hline. lia. }
        assert (substring line (i + List.length m) (List.length line) = post)
          as ->.
        { rewrite substring_to_end by lia.
          rewrite Nat.add_comm, <- skipn_skipn, Hpost.
          rewrite skipn_app, skipn_all, Nat.sub_diag. reflexivity. }
        split; [|apply trim_edges].
        exists [], m, markers, (firstn i line), post.
        rewrite Hlen. repeat split; auto.
    + destruct IHnone as [IH1 IH2]. split.
      * split.
        -- intros H m' [<-|Hin]; [|now apply IH1].
           apply includes_false. unfold includes. now rewrite E.
        -- intros H. apply IH2. intros m' Hin. apply H. now right.
      * intros c H.
        destruct (IHsome c H)
          as ((before & m0 & after & pre & post & Hmk & Hb & Hline & Hidx & Hc)
              & Hedges).
        split; [|exact Hedges].
        exists (m :: before), m0, after, pre, post.
        repeat split; auto.
        -- simpl. now rewrite Hmk.
        -- intros m' [<-|Hin]; [|now apply Hb].
           apply includes_false. unfold includes. now rewrite E.
Qed.

(** ** Durations *)

(** X28.  [formatDuration] shows no unit below the ones it prints: the
    milliseconds beyond a whole second never matter, and from one hour on
    the seconds beyond a whole minute do not matter either. *)
Theorem formatDuration_truncates (ms : Z) :
  (0 <= ms)%Z ->
  formatDuration (1000 * (ms / 1000)) = formatDuration ms
  /\ ((3600000 <= ms)%Z ->
      formatDuration (60000 * (ms / 60000)) = formatDuration ms).
Proof.
  intros Hms. split.
  - unfold formatDuration.
    replace (1000 * (ms / 1000) / 1000)%Z with (ms / 1000)%Z
      by (rewrite Z.mul_comm, Z.div_mul; lia).
    reflexivity.
  - intros Hhour. unfold formatDuration.
    assert (ms / 1000 / 60 = ms / 60000)%Z as Hmin
        by (rewrite Z.div_div by lia; reflexivity).
    assert (60000 * (ms / 60000) / 1000 / 60 = ms / 60000)%Z as Hmin'.
    { rewrite Z.div_div by lia. change (1000 * 60)%Z with 60000%Z.
      rewrite Z.mul_comm, Z.div_mul; lia. }
    rewrite Hmin, Hmin'.
    assert ((0 <? ms / 60000 / 60)%Z = true) as ->.
    { apply Z.ltb_lt. rewrite Z.div_div by lia.
      change (60000 * 60)%Z with 3600000%Z. apply Z.div_str_pos. lia. }
    reflexivity.
Qed.

Lemma formatDuration_truncates_witness :
  formatDuration (1000 * (3725999 / 1000)) = formatDuration 3725999
  /\ ((3600000 <= 3725999)%Z ->
      formatDuration (60000 * (3725999 / 60000)) = formatDuration 3725999).
Proof.
  apply (formatDuration_truncates 3725999). lia.
Defined.

Example formatDuration_renders :
  formatDuration 3725999 = lit "1小时2分钟"
  /\ formatDuration 125000 = lit "2分钟5秒"
  /\ formatDuration 999 = lit "0秒"
  /\ formatDuration (-5000) = lit "-5秒".
Proof. repeat split; vm_compute; reflexivity. Qed.
